(** * Support bot: ticket store, correlation index, routing and block list

    A shallow embedding of [bot.py].  The four SQLite tables are modelled as
    one record [DB]; the helper functions that only talk to the database are
    pure functions on [DB]; the coroutines that also call the Telegram
    transport run in a small state-and-exception monad that records every
    transport call in a trace.  Handlers run one at a time, each to its
    end; what they write to the log is left out. *)

From Stdlib Require Import ZArith NArith Ascii String DecimalString.
From stdpp Require Import gmap list option.

Local Open Scope Z_scope.

(** ** Python strings

    A Python [str] is a sequence of Unicode code points; slicing and [len]
    count code points, not bytes.  String literals of the source are written
    as UTF-8 literals and decoded by [lit]. *)

Abbreviation str := (list N).

Fixpoint utf8_decode (bs : list N) : str :=
  match bs with
  | [] => []
  | b :: r =>
    if (b <? 128)%N then b :: utf8_decode r
    else if (b <? 224)%N then
      match r with
      | c1 :: r1 => ((b mod 32) * 64 + c1 mod 64)%N :: utf8_decode r1
      | _ => []
      end
    else if (b <? 240)%N then
      match r with
      | c1 :: c2 :: r2 =>
        ((b mod 16) * 4096 + (c1 mod 64) * 64 + c2 mod 64)%N :: utf8_decode r2
      | _ => []
      end
    else
      match r with
      | c1 :: c2 :: c3 :: r3 =>
        ((b mod 8) * 262144 + (c1 mod 64) * 4096 + (c2 mod 64) * 64 + c3 mod 64)%N
          :: utf8_decode r3
      | _ => []
      end
  end.

Definition lit (s : string) : str :=
  utf8_decode (map N_of_ascii (list_ascii_of_string s)).
Arguments lit : simpl never.

(** [str(n)] / [f"{n}"] for an integer: its decimal numeral. *)
Definition str_of_int (n : Z) : str :=
  map N_of_ascii (list_ascii_of_string (NilZero.string_of_int (Z.to_int n))).
Arguments str_of_int : simpl never.

(** Truthiness of the values the handlers test with [if x:] or [x or d]. *)
Definition truthy_str (s : option str) : bool :=
  match s with Some (_ :: _) => true | _ => false end.

Definition truthy_int (n : option Z) : bool :=
  match n with Some k => negb (k =? 0) | None => false end.

(** [s or d] for an optional string. *)
Definition str_or (s : option str) (d : str) : str :=
  match s with Some (c :: r) => c :: r | _ => d end.

(** ** The database *)

(** Timestamps are instants of the UTC clock ([datetime.now(timezone.utc)]),
    counted in microseconds; the tables keep their ISO rendering. *)
Abbreviation timestamp := Z.

(** A row of [messages_mapping]. *)
Record MappingRow := mkMapping {
  m_user_chat_id : Z;
  m_user_message_id : Z;
  m_support_message_id : Z;
  m_ticket_id : Z }.

(** A row of [tickets]. *)
Record TicketRow := mkTicket {
  t_id : Z;
  t_user_chat_id : Z;
  t_username : option str;
  t_first_name : option str;
  t_status : str;
  t_created_at : timestamp;
  t_updated_at : timestamp;
  t_topic_id : option Z }.

(** The non-key columns of a row of [blocked_users]. *)
Record BlockRow := mkBlock {
  b_blocked_at : timestamp;
  b_admin_id : Z }.

(** [messages_mapping] and [tickets] are kept in rowid order, which is the
    order of a scan without index; [tickets_seq] is the AUTOINCREMENT
    counter of [tickets]; [blocked_users] and [bot_settings] are keyed by
    their primary key. *)
Record DB := mkDB {
  messages_mapping : list MappingRow;
  tickets : list TicketRow;
  tickets_seq : Z;
  blocked_users : gmap Z BlockRow;
  bot_settings : gmap str str }.

Definition empty_db : DB := mkDB [] [] 0 ∅ ∅.

Definition set_messages_mapping (f : list MappingRow → list MappingRow) (d : DB) : DB :=
  mkDB (f (messages_mapping d)) (tickets d) (tickets_seq d) (blocked_users d) (bot_settings d).

Definition set_tickets (f : list TicketRow → list TicketRow) (d : DB) : DB :=
  mkDB (messages_mapping d) (f (tickets d)) (tickets_seq d) (blocked_users d) (bot_settings d).

Definition set_blocked_users (f : gmap Z BlockRow → gmap Z BlockRow) (d : DB) : DB :=
  mkDB (messages_mapping d) (tickets d) (tickets_seq d) (f (blocked_users d)) (bot_settings d).

Definition set_bot_settings (f : gmap str str → gmap str str) (d : DB) : DB :=
  mkDB (messages_mapping d) (tickets d) (tickets_seq d) (blocked_users d) (f (bot_settings d)).

(** ** Settings *)

Definition get_setting (key default : str) (d : DB) : str :=
  match bot_settings d !! key with
  | Some v => v
  | None => default
  end.

Definition set_setting (key value : str) (d : DB) : DB :=
  set_bot_settings (insert key value) d.

Definition get_topic_mode (d : DB) : str :=
  get_setting (lit "topic_mode") (lit "per_user") d.

Definition set_topic_mode (mode : str) (d : DB) : DB :=
  set_setting (lit "topic_mode") mode d.

(** ** Block list *)

Definition is_user_blocked (user_chat_id : Z) (d : DB) : bool :=
  match blocked_users d !! user_chat_id with
  | Some _ => true
  | None => false
  end.

(** The INSERT is reached only after the SELECT found no row, so the
    primary key of [blocked_users] cannot be violated. *)
Definition toggle_user_block (now : timestamp) (user_chat_id admin_id : Z) (d : DB)
  : DB * bool :=
  if is_user_blocked user_chat_id d then
    (set_blocked_users (delete user_chat_id) d, false)
  else
    (set_blocked_users (insert user_chat_id (mkBlock now admin_id)) d, true).

(** ** Tickets *)

Definition is_open_ticket_of (user_chat_id : Z) (r : TicketRow) : bool :=
  (t_user_chat_id r =? user_chat_id) && bool_decide (t_status r = lit "open").

(** [ORDER BY id DESC LIMIT 1] over the matching rows: the matching row with
    the largest id. *)
Definition newest (acc : option TicketRow) (r : TicketRow) : option TicketRow :=
  match acc with
  | Some a => if t_id a <? t_id r then Some r else Some a
  | None => Some r
  end.

Definition get_open_ticket (user_chat_id : Z) (d : DB) : option (Z * option Z) :=
  match foldl newest None (List.filter (is_open_ticket_of user_chat_id) (tickets d)) with
  | Some r => Some (t_id r, t_topic_id r)
  | None => None
  end.

(** The rowid an AUTOINCREMENT table gives to the next row: one more than
    the largest of the counter and the rowids present. *)
Definition next_ticket_id (d : DB) : Z :=
  Z.max (tickets_seq d) (foldr Z.max 0 (map t_id (tickets d))) + 1.

(** The INSERT of [create_ticket], with [cursor.lastrowid]. *)
Definition insert_ticket (now : timestamp) (user_chat_id : Z)
    (username first_name : option str) (topic_id : option Z) (d : DB) : DB * Z :=
  let ticket_id := next_ticket_id d in
  let row := mkTicket ticket_id user_chat_id username first_name (lit "open")
                      now now topic_id in
  (mkDB (messages_mapping d) (tickets d ++ [row]) ticket_id
        (blocked_users d) (bot_settings d),
   ticket_id).

(** A row after [SET status = ?, updated_at = ?]. *)
Definition with_status (status : str) (now : timestamp) (r : TicketRow) : TicketRow :=
  mkTicket (t_id r) (t_user_chat_id r) (t_username r) (t_first_name r)
           status (t_created_at r) now (t_topic_id r).

(** The effect of the UPDATE on one row: [WHERE id = ?]. *)
Definition set_status_of (ticket_id : Z) (status : str) (now : timestamp)
    (r : TicketRow) : TicketRow :=
  if t_id r =? ticket_id then with_status status now r else r.

Definition update_ticket_status (now : timestamp) (ticket_id : Z) (status : str)
    (d : DB) : DB :=
  set_tickets (map (set_status_of ticket_id status now)) d.

Definition get_ticket (ticket_id : Z) (d : DB) : option TicketRow :=
  List.find (λ r, t_id r =? ticket_id) (tickets d).

Definition get_user_chat_id_by_ticket (ticket_id : Z) (d : DB) : option Z :=
  t_user_chat_id <$> get_ticket ticket_id d.

Definition get_topic_id_by_ticket (ticket_id : Z) (d : DB) : option Z :=
  get_ticket ticket_id d ≫= t_topic_id.

(** ** Message correlation *)

Definition has_support_message (support_message_id : Z) (r : MappingRow) : bool :=
  m_support_message_id r =? support_message_id.

Definition get_ticket_by_support_message (support_message_id : Z) (d : DB) : option Z :=
  m_ticket_id <$> List.find (has_support_message support_message_id) (messages_mapping d).

Definition same_origin (user_chat_id user_message_id : Z) (r : MappingRow) : bool :=
  (m_user_chat_id r =? user_chat_id) && (m_user_message_id r =? user_message_id).

(** [INSERT OR REPLACE]: the row with the same primary key, if any, is
    deleted and the new row gets a fresh rowid at the end of the table. *)
Definition save_mapping (user_chat_id user_message_id support_message_id ticket_id : Z)
    (d : DB) : DB :=
  set_messages_mapping
    (λ rows,
       List.filter (λ r, negb (same_origin user_chat_id user_message_id r)) rows
       ++ [mkMapping user_chat_id user_message_id support_message_id ticket_id])
    d.

Definition find_user_by_support_message (support_message_id : Z) (d : DB)
  : option (Z * Z * Z) :=
  match List.find (has_support_message support_message_id) (messages_mapping d) with
  | Some r => Some (m_user_chat_id r, m_user_message_id r, m_ticket_id r)
  | None => None
  end.

(** ** Telegram objects and the transport *)

Record User := mkUser {
  u_id : Z;
  u_username : option str;
  u_first_name : str }.

(** An incoming message.  [photo] holds the file ids of the sizes of a
    photo, smallest first (empty when the message has no photo); the other
    attachments hold the file id; [reply_to_message] is the id of the message
    this one replies to. *)
Record Message := mkMessage {
  chat_id : Z;
  message_id : Z;
  from_user : User;
  photo : list str;
  video : option str;
  document : option str;
  voice : option str;
  audio : option str;
  caption : option str;
  text : option str;
  reply_to_message : option Z }.

(** The keyword arguments shared by the relay calls; [reply_markup] is the
    callback data of the block button, when there is one. *)
Record SendKwargs := mkKwargs {
  kw_chat_id : Z;
  kw_message_thread_id : option Z;
  kw_reply_markup : option str }.

(** A call to the bot API. *)
Inductive call :=
  | create_forum_topic (chat : Z) (name : str)
  | reply_text (chat : Z) (body : str)
  | send_message (body : str) (parse_mode : option str) (kw : SendKwargs)
  | send_photo (file : str) (cap : str) (kw : SendKwargs)
  | send_video (file : str) (cap : str) (kw : SendKwargs)
  | send_document (file : str) (cap : str) (kw : SendKwargs)
  | send_voice (file : str) (cap : str) (kw : SendKwargs)
  | send_audio (file : str) (cap : str) (kw : SendKwargs).

(** The state a handler runs in: the database and the calls made so far. *)
Record World := mkWorld {
  db : DB;
  trace : list call }.

Inductive outcome (A : Type) :=
  | Returned (a : A)
  | Raised.
Arguments Returned {A} a.
Arguments Raised {A}.

Definition M (A : Type) : Type := World → outcome A * World.

#[global] Instance M_ret : MRet M := λ A a w, (Returned a, w).

#[global] Instance M_bind : MBind M := λ A B f m w,
  match m w with
  | (Returned a, w') => f a w'
  | (Raised, w') => (Raised, w')
  end.

Definition query {A} (f : DB → A) : M A := λ w, (Returned (f (db w)), w).

Definition execute (f : DB → DB) : M unit :=
  λ w, (Returned (), mkWorld (f (db w)) (trace w)).

Definition execute_returning {A} (f : DB → DB * A) : M A :=
  λ w, (Returned (f (db w)).2, mkWorld (f (db w)).1 (trace w)).

(** [try: x = m  except Exception: x = None]. *)
Definition try_ {A} (m : M A) : M (option A) := λ w,
  match m w with
  | (Returned a, w') => (Returned (Some a), w')
  | (Raised, w') => (Returned None, w')
  end.

(** ** Handlers *)

Definition nl : str := [10%N].

Definition display_name_of (username first_name : option str) (user_chat_id : Z) : str :=
  str_or username (str_or first_name (lit "User" ++ str_of_int user_chat_id)).

(** [f"{header}\n\n{cap}" if cap else header] with [cap = message.caption or ""]. *)
Definition caption_text (header : str) (message : Message) : str :=
  match str_or (caption message) [] with
  | [] => header
  | cap => header ++ nl ++ nl ++ cap
  end.

(** The [if message.photo: ... elif message.video: ...] chain of
    [forward_to_support]: the call that relays the message, or [None] when
    the chain ends in [return]. *)
Definition relay_call (message : Message) (header : str) (kw : SendKwargs)
  : option call :=
  match photo message with
  | _ :: _ => Some (send_photo (List.last (photo message) []) (caption_text header message) kw)
  | [] =>
    match video message with
    | Some file => Some (send_video file (caption_text header message) kw)
    | None =>
      match document message with
      | Some file => Some (send_document file (caption_text header message) kw)
      | None =>
        match voice message with
        | Some file => Some (send_voice file header kw)
        | None =>
          match audio message with
          | Some file => Some (send_audio file (caption_text header message) kw)
          | None =>
            match text message with
            | Some (c :: body) => Some (send_message (header ++ nl ++ nl ++ c :: body) None kw)
            | _ => None
            end
          end
        end
      end
    end
  end.

(** The same chain in [reply_from_support]; it ends without a call when the
    reply has no content of these kinds. *)
Definition reply_call (message : Message) (kw : SendKwargs) : option call :=
  let cap := str_or (caption message) [] in
  match photo message with
  | _ :: _ => Some (send_photo (List.last (photo message) []) cap kw)
  | [] =>
    match video message with
    | Some file => Some (send_video file cap kw)
    | None =>
      match document message with
      | Some file => Some (send_document file cap kw)
      | None =>
        match voice message with
        | Some file => Some (send_voice file cap kw)
        | None =>
          match audio message with
          | Some file => Some (send_audio file cap kw)
          | None =>
            match text message with
            | Some (c :: body) => Some (send_message (c :: body) None kw)
            | _ => None
            end
          end
        end
      end
    end
  end.

Section Handlers.

(** Configuration read from the environment at start-up. *)
Variable SUPPORT_CHAT_ID : Z.
Variable SUPPORT_TOPIC_ID : option Z.

(** The Telegram side: given the calls made so far and a call, either the
    identifier the call returns (a message id, or the thread id of a new
    topic) or [None] when the call raises. *)
Variable transport : list call → call → option Z.

Definition bot (c : call) : M Z := λ w,
  let w' := mkWorld (db w) (trace w ++ [c]) in
  match transport (trace w) c with
  | Some r => (Returned r, w')
  | None => (Raised, w')
  end.

Definition user_info (user_chat_id : Z) (username first_name : option str)
    (ticket_id : Z) : str :=
  let username_display :=
    if truthy_str username then lit "@" ++ str_or username [] else lit "Не указан" in
  lit "👤 <b>Информация о пользователе</b>" ++ nl ++ nl
  ++ lit "🆔 ID: <code>" ++ str_of_int user_chat_id ++ lit "</code>" ++ nl
  ++ lit "👤 Имя: " ++ str_or first_name (lit "Не указано") ++ nl
  ++ lit "📱 Username: " ++ username_display ++ nl
  ++ lit "🎫 Тикет: #" ++ str_of_int ticket_id.

Definition create_ticket (now : timestamp) (user_chat_id : Z)
    (username first_name : option str) : M (Z * option Z) :=
  topic_mode ← query get_topic_mode;
  topic_id ←
    (if bool_decide (topic_mode = lit "per_user") then
       let display_name := display_name_of username first_name user_chat_id in
       let topic_name := lit "🟢 " ++ display_name in
       try_ (bot (create_forum_topic SUPPORT_CHAT_ID (take 128 topic_name)))
     else mret None);
  ticket_id ←
    execute_returning (insert_ticket now user_chat_id username first_name topic_id);
  _ ←
    (if bool_decide (topic_mode = lit "per_user") && truthy_int topic_id then
       try_ (bot (send_message (user_info user_chat_id username first_name ticket_id)
                               (Some (lit "HTML"))
                               (mkKwargs SUPPORT_CHAT_ID topic_id None)))
     else mret None);
  mret (ticket_id, topic_id).

Definition header_of (topic_mode : str) (new_ticket : bool) (ticket_id : Z)
    (user : User) : str :=
  let username :=
    if truthy_str (u_username user) then lit "@" ++ str_or (u_username user) []
    else lit "Не указан" in
  let first_name := str_or (Some (u_first_name user)) (lit "Не указано") in
  if bool_decide (topic_mode = lit "single_topic") && new_ticket then
    lit "🎫 НОВЫЙ ТИКЕТ" ++ nl ++ nl
    ++ lit "🆔 Тикет: " ++ str_of_int ticket_id ++ nl
    ++ lit "👤 Пользователь: " ++ first_name ++ nl
    ++ lit "🆔 Telegram ID: " ++ str_of_int (u_id user) ++ nl
    ++ lit "📱 Username: " ++ username
  else
    lit "💬 " ++ first_name ++ lit " (" ++ username ++ lit "):".

(** The [message_thread_id] entry of [send_kwargs]; [None] when the entry
    is absent and the message goes to the root of the support chat. *)
Definition message_thread_id_for (topic_mode : str) (topic_id : option Z)
  : option Z :=
  if bool_decide (topic_mode = lit "per_user") && truthy_int topic_id then topic_id
  else if bool_decide (topic_mode = lit "single_topic") && truthy_int SUPPORT_TOPIC_ID
       then SUPPORT_TOPIC_ID
  else None.

Definition send_kwargs_for (topic_mode : str) (topic_id : option Z)
    (user_chat_id : Z) : SendKwargs :=
  mkKwargs SUPPORT_CHAT_ID (message_thread_id_for topic_mode topic_id)
           (Some (lit "block_" ++ str_of_int user_chat_id)).

(** The [try] block of [forward_to_support].  A returned message object is
    truthy, so the mapping is saved whenever the call returns. *)
Definition relay (message : Message) (header : str) (kw : SendKwargs)
    (ticket_id : Z) : M unit :=
  match relay_call message header kw with
  | Some c =>
    sent_message ← try_ (bot c);
    match sent_message with
    | Some support_message_id =>
      execute (save_mapping (chat_id message) (message_id message)
                            support_message_id ticket_id)
    | None => mret ()
    end
  | None => mret ()
  end.

Definition forward_to_support (now : timestamp) (message : Message) : M unit :=
  let user := from_user message in
  let user_chat_id := chat_id message in
  blocked ← query (is_user_blocked user_chat_id);
  if blocked : bool then mret ()
  else
    ticket_data ← query (get_open_ticket user_chat_id);
    '(ticket_id, topic_id, new_ticket) ←
      match ticket_data with
      | None =>
        '(ticket_id, topic_id) ←
          create_ticket now user_chat_id (u_username user) (Some (u_first_name user));
        _ ← bot (reply_text user_chat_id
                   (lit "✅ Ваш тикет #" ++ str_of_int ticket_id
                    ++ lit " создан. Оператор поддержки скоро ответит."));
        mret (ticket_id, topic_id, true)
      | Some (ticket_id, topic_id) => mret (ticket_id, topic_id, false)
      end;
    topic_mode ← query get_topic_mode;
    let header := header_of topic_mode new_ticket ticket_id user in
    let send_kwargs := send_kwargs_for topic_mode topic_id user_chat_id in
    relay message header send_kwargs ticket_id.

Definition reply_from_support (message : Message) : M unit :=
  if negb (chat_id message =? SUPPORT_CHAT_ID) then mret ()
  else
    match reply_to_message message with
    | None => mret ()
    | Some replied_msg =>
      found ← query (find_user_by_support_message replied_msg);
      match found with
      | None => mret ()
      | Some (user_chat_id, _, _) =>
        blocked ← query (is_user_blocked user_chat_id);
        if blocked : bool then
          _ ← bot (reply_text (chat_id message)
                     (lit "⛔️ Этот пользователь заблокирован. Он не получит сообщение."));
          mret ()
        else
          match reply_call message (mkKwargs user_chat_id None None) with
          | Some c => _ ← try_ (bot c); mret ()
          | None => mret ()
          end
      end
    end.

End Handlers.

(** ** Commands of the users *)

Definition DEFAULT_GREETING : str :=
  lit "Здравствуйте!" ++ nl ++ nl
  ++ lit "Напишите Ваш вопрос, и мы ответим Вам в ближайшее время." ++ nl ++ nl
  ++ lit "🕘 Время работы поддержки: Пн - Вс, с 7:00 до 21:00 по МСК".

Definition DEFAULT_HELP : str :=
  lit "🕘 Время работы поддержки: Пн - Вс, с 7:00 до 21:00 по МСК" ++ nl ++ nl
  ++ lit "📝 Заполняйте тикет внимательно и кратко, но максимально подробно. "
  ++ lit "Помните, что это не чат с техподдержкой в реальном времени. Все тикеты обрабатываются в порядке очереди." ++ nl ++ nl
  ++ lit "⌛️ Возможно придётся подождать некоторое время, прежде чем вы получите ответ на свой вопрос.".

Section Commands.

Variable transport : list call → call → option Z.

(** [update.effective_user] is the sender of the message, and
    [update.message.reply_text] answers in the chat of the message. *)
Definition start (message : Message) : M unit :=
  blocked ← query (is_user_blocked (u_id (from_user message)));
  if blocked : bool then mret ()
  else
    greeting_text ← query (get_setting (lit "greeting") DEFAULT_GREETING);
    _ ← bot transport (reply_text (chat_id message) greeting_text);
    mret ().

Definition help_command (message : Message) : M unit :=
  blocked ← query (is_user_blocked (u_id (from_user message)));
  if blocked : bool then mret ()
  else
    help_text ← query (get_setting (lit "help") DEFAULT_HELP);
    _ ← bot transport (reply_text (chat_id message) help_text);
    mret ().

End Commands.

(** ** Commands and buttons of the operators *)

(** The calls of the operator side: those of the user side, the renaming of
    a forum topic, and the answer to a callback query. *)
Inductive op_call :=
  | op_plain (c : call)
  | edit_forum_topic (chat : Z) (message_thread_id : Z) (name : str)
  | answer_callback_query.

Record OpWorld := mkOpWorld {
  op_db : DB;
  op_trace : list op_call }.

Definition OpM (A : Type) : Type := OpWorld → outcome A * OpWorld.

#[global] Instance OpM_ret : MRet OpM := λ A a w, (Returned a, w).

#[global] Instance OpM_bind : MBind OpM := λ A B f m w,
  match m w with
  | (Returned a, w') => f a w'
  | (Raised, w') => (Raised, w')
  end.

Definition op_query {A} (f : DB → A) : OpM A := λ w, (Returned (f (op_db w)), w).

Definition op_execute (f : DB → DB) : OpM unit :=
  λ w, (Returned (), mkOpWorld (f (op_db w)) (op_trace w)).

Definition op_execute_returning {A} (f : DB → DB * A) : OpM A :=
  λ w, (Returned (f (op_db w)).2, mkOpWorld (f (op_db w)).1 (op_trace w)).

Definition op_try {A} (m : OpM A) : OpM (option A) := λ w,
  match m w with
  | (Returned a, w') => (Returned (Some a), w')
  | (Raised, w') => (Returned None, w')
  end.

(** [s.startswith(prefix)]. *)
Fixpoint starts_with (prefix s : str) : bool :=
  match prefix, s with
  | [], _ => true
  | p :: prefix', c :: s' => (p =? c)%N && starts_with prefix' s'
  | _ :: _, [] => false
  end.

(** [s.split(sep)] for a separator of one character. *)
Fixpoint split_on (sep : N) (s : str) : list str :=
  match s with
  | [] => [[]]
  | c :: s' =>
    if (c =? sep)%N then [] :: split_on sep s'
    else
      match split_on sep s' with
      | part :: parts => (c :: part) :: parts
      | [] => [[c]]
      end
  end.

(** [SELECT ... FROM tickets WHERE user_chat_id = ? ORDER BY id DESC LIMIT 1]. *)
Definition latest_ticket_of (user_chat_id : Z) (d : DB) : option TicketRow :=
  foldl newest None (List.filter (λ r, t_user_chat_id r =? user_chat_id) (tickets d)).

(** The callback query of a pressed button: its data, the id of the user
    who pressed, and the chat and thread of the message the button is
    under. *)
Record CallbackQuery := mkCallbackQuery {
  cq_data : str;
  cq_from_user : Z;
  cq_chat_id : Z;
  cq_message_thread_id : option Z }.

Section Operators.

Variable SUPPORT_CHAT_ID : Z.

Variable op_transport : list op_call → op_call → option Z.

(** Python's [int] on a string: the integer, or [None] for [ValueError]. *)
Variable py_int : str → option Z.

Definition op_bot (c : op_call) : OpM Z := λ w,
  let w' := mkOpWorld (op_db w) (op_trace w ++ [c]) in
  match op_transport (op_trace w) c with
  | Some r => (Returned r, w')
  | None => (Raised, w')
  end.

Definition update_topic_status (ticket_id : Z) (status : str) : OpM unit :=
  topic_mode ← op_query get_topic_mode;
  if negb (bool_decide (topic_mode = lit "per_user")) then mret ()
  else
    row ← op_query (get_ticket ticket_id);
    match row with
    | None => mret ()
    | Some r =>
      match t_topic_id r with
      | None => mret ()
      | Some topic_id =>
        if topic_id =? 0 then mret ()
        else
          let status_emoji :=
            if bool_decide (status = lit "closed") then lit "🔴" else lit "🟢" in
          let display_name :=
            display_name_of (t_username r) (t_first_name r) (t_user_chat_id r) in
          let topic_name := status_emoji ++ lit " " ++ display_name in
          _ ← op_try (op_bot (edit_forum_topic SUPPORT_CHAT_ID topic_id
                                               (take 128 topic_name)));
          mret ()
      end
    end.

Definition close_ticket_cmd (now : timestamp) (message : Message) : OpM unit :=
  if negb (chat_id message =? SUPPORT_CHAT_ID) then mret ()
  else
    match reply_to_message message with
    | None =>
      _ ← op_bot (op_plain (reply_text (chat_id message)
                    (lit "Команду /close нужно вызывать ответом на сообщение тикета.")));
      mret ()
    | Some replied =>
      found ← op_query (get_ticket_by_support_message replied);
      match found with
      | Some ticket_id =>
        if ticket_id =? 0 then
          _ ← op_bot (op_plain (reply_text (chat_id message)
                        (lit "Не удалось определить тикет для этого сообщения.")));
          mret ()
        else
          user_chat_id ← op_query (get_user_chat_id_by_ticket ticket_id);
          _ ← op_execute (update_ticket_status now ticket_id (lit "closed"));
          _ ← update_topic_status ticket_id (lit "closed");
          _ ← op_bot (op_plain (reply_text (chat_id message)
                        (lit "✅ Тикет #" ++ str_of_int ticket_id ++ lit " закрыт.")));
          match user_chat_id with
          | Some user =>
            if user =? 0 then mret ()
            else
              _ ← op_try (op_bot (op_plain
                     (send_message (lit "✅ Обращение завершено") None (mkKwargs user None None))));
              mret ()
          | None => mret ()
          end
      | None =>
        _ ← op_bot (op_plain (reply_text (chat_id message)
                      (lit "Не удалось определить тикет для этого сообщения.")));
        mret ()
      end
    end.

Definition reopen_ticket_cmd (now : timestamp) (message : Message) : OpM unit :=
  if negb (chat_id message =? SUPPORT_CHAT_ID) then mret ()
  else
    match reply_to_message message with
    | None =>
      _ ← op_bot (op_plain (reply_text (chat_id message)
                    (lit "Команду /reopen нужно вызывать ответом на сообщение тикета.")));
      mret ()
    | Some replied =>
      found ← op_query (get_ticket_by_support_message replied);
      match found with
      | Some ticket_id =>
        if ticket_id =? 0 then
          _ ← op_bot (op_plain (reply_text (chat_id message)
                        (lit "Не удалось определить тикет для этого сообщения.")));
          mret ()
        else
          _ ← op_execute (update_ticket_status now ticket_id (lit "open"));
          _ ← update_topic_status ticket_id (lit "open");
          _ ← op_bot (op_plain (reply_text (chat_id message)
                        (lit "♻️ Тикет #" ++ str_of_int ticket_id ++ lit " снова открыт.")));
          mret ()
      | None =>
        _ ← op_bot (op_plain (reply_text (chat_id message)
                      (lit "Не удалось определить тикет для этого сообщения.")));
        mret ()
      end
    end.

(** The line of [block_user_callback] that names the user. *)
Definition blocked_user_info (target_user_id : Z) (d : DB) : str :=
  match latest_ticket_of target_user_id d with
  | Some r =>
    let username_str :=
      if truthy_str (t_username r) then lit "@" ++ str_or (t_username r) []
      else lit "без юзернейма" in
    str_or (t_first_name r) (lit "Пользователь") ++ lit " (" ++ username_str ++ lit ")"
  | None => lit "Пользователь " ++ str_of_int target_user_id
  end.

Definition block_user_callback (now : timestamp) (query : CallbackQuery) : OpM unit :=
  _ ← op_bot answer_callback_query;
  let data := cq_data query in
  if negb (starts_with (lit "block_") data) then mret ()
  else
    match split_on 95 data with
    | _ :: segment :: _ =>
      match py_int segment with
      | None => mret ()
      | Some target_user_id =>
        let admin_id := cq_from_user query in
        is_blocked_now ←
          op_execute_returning (toggle_user_block now target_user_id admin_id);
        user_info ← op_query (blocked_user_info target_user_id);
        let text :=
          if is_blocked_now : bool
          then lit "👨 " ++ user_info ++ nl ++ lit "❗️ Пользователь заблокирован"
          else lit "👨 " ++ user_info ++ nl ++ lit "❗️ Пользователь разблокирован" in
        _ ← op_bot (op_plain (send_message text None
                               (mkKwargs (cq_chat_id query)
                                         (cq_message_thread_id query) None)));
        mret ()
      end
    | _ => mret ()
    end.

End Operators.

(** ** Vocabulary of the properties *)

(** The keyword arguments of a call that takes them. *)
Definition kwargs_of (c : call) : option SendKwargs :=
  match c with
  | create_forum_topic _ _ | reply_text _ _ => None
  | send_message _ _ kw | send_photo _ _ kw | send_video _ _ kw
  | send_document _ _ kw | send_voice _ _ kw | send_audio _ _ kw => Some kw
  end.

(** The calls that relay a user's message are the ones that carry the block
    button. *)
Definition is_relay (c : call) : bool :=
  match kwargs_of c with
  | Some kw => bool_decide (is_Some (kw_reply_markup kw))
  | None => false
  end.

(** The caption a call carries, for the calls that send an attachment. *)
Definition caption_of (c : call) : option str :=
  match c with
  | send_photo _ cap _ | send_video _ cap _ | send_document _ cap _
  | send_voice _ cap _ | send_audio _ cap _ => Some cap
  | _ => None
  end.

(** A message with no photo, video, document, voice or audio and no text. *)
Definition no_content (m : Message) : bool :=
  match photo m, video m, document m, voice m, audio m with
  | [], None, None, None, None => negb (truthy_str (text m))
  | _, _, _, _, _ => false
  end.

(** The timestamps of a ticket are in order and not ahead of the clock. *)
Definition times_ok (clock : timestamp) (r : TicketRow) : Prop :=
  t_created_at r ≤ t_updated_at r ∧ t_updated_at r ≤ clock.

(** ** Sample data *)

Definition alice : User := mkUser 42 (Some (lit "alice")) (lit "Alice").

Definition text_message : Message :=
  mkMessage 42 7 alice [] None None None None None (Some (lit "hello")) None.

(** A sticker: no text and none of the attachments the relay looks at. *)
Definition sticker_message : Message :=
  mkMessage 42 8 alice [] None None None None None None None.

(** A voice message that carries a caption. *)
Definition voice_message : Message :=
  mkMessage 42 9 alice [] None None (Some (lit "voice-1")) None
            (Some (lit "listen")) None None.

(** A transport that answers every call, numbering what it returns. *)
Definition answering : list call → call → option Z :=
  λ history _, Some (100 + Z.of_nat (length history)).

(** A transport on which forum topics cannot be created. *)
Definition no_topics : list call → call → option Z :=
  λ history c,
    match c with
    | create_forum_topic _ _ => None
    | _ => Some (100 + Z.of_nat (length history))
    end.

Definition start_world : World := mkWorld empty_db [].


Definition operator : User := mkUser 9 None (lit "Op").

(** A reply of an operator to the relayed message 103, and [/close] sent as
    a reply to the same message. *)
Definition operator_reply : Message :=
  mkMessage (-1001) 500 operator [] None None None None None
            (Some (lit "how can I help?")) (Some 103).

Definition close_command : Message :=
  mkMessage (-1001) 501 operator [] None None None None None
            (Some (lit "/close")) (Some 103).

Definition op_answering : list op_call → op_call → option Z :=
  λ history _, Some (200 + Z.of_nat (length history)).

(** The press of the block button under a relayed message of user 42, and a
    reader of numerals that knows the numeral of 42. *)
Definition block_press : CallbackQuery :=
  mkCallbackQuery (lit "block_42") 9 (-1001) (Some 100).

Definition read_42 : str → option Z :=
  λ s, if bool_decide (s = str_of_int 42) then Some 42 else None.

(** ** Reachable states *)

Section Reachability.

Variable SUPPORT_CHAT_ID : Z.
Variable SUPPORT_TOPIC_ID : option Z.
Variable transport : list call → call → option Z.

(** The states the bot gets to from an empty database, one operation after
    the other, under a clock that never goes back.  The first index is the
    latest reading of the clock. *)
Inductive reachable : timestamp → World → Prop :=
  | reach_start (t0 : timestamp) :
      reachable t0 (mkWorld empty_db [])
  | reach_create_ticket t w now user_chat_id username first_name :
      reachable t w → t ≤ now →
      reachable now
        (snd (create_ticket SUPPORT_CHAT_ID transport now user_chat_id username first_name w))
  | reach_forward_to_support t w now message :
      reachable t w → t ≤ now →
      reachable now
        (snd (forward_to_support SUPPORT_CHAT_ID SUPPORT_TOPIC_ID transport now message w))
  | reach_reply_from_support t w message :
      reachable t w →
      reachable t (snd (reply_from_support SUPPORT_CHAT_ID transport message w))
  | reach_update_ticket_status t w now ticket_id status :
      reachable t w → t ≤ now →
      reachable now (mkWorld (update_ticket_status now ticket_id status (db w)) (trace w))
  | reach_toggle_user_block t w now user_chat_id admin_id :
      reachable t w → t ≤ now →
      reachable now
        (mkWorld (fst (toggle_user_block now user_chat_id admin_id (db w))) (trace w))
  | reach_save_mapping t w user_chat_id user_message_id support_message_id ticket_id :
      reachable t w →
      reachable t
        (mkWorld (save_mapping user_chat_id user_message_id support_message_id ticket_id (db w))
                 (trace w))
  | reach_set_setting t w key value :
      reachable t w →
      reachable t (mkWorld (set_setting key value (db w)) (trace w)).

End Reachability.

(** ** Vocabulary of the store properties *)

(** The primary key of a row of [messages_mapping]. *)
Definition origin_key (r : MappingRow) : Z * Z :=
  (m_user_chat_id r, m_user_message_id r).

(** The columns of a ticket that no statement of the bot ever updates. *)
Definition immutable_columns (r : TicketRow)
  : Z * Z * option str * option str * timestamp * option Z :=
  (t_id r, t_user_chat_id r, t_username r, t_first_name r, t_created_at r, t_topic_id r).

(** An open ticket of a user. *)
Definition open_ticket_of (user_chat_id : Z) (r : TicketRow) : Prop :=
  t_user_chat_id r = user_chat_id ∧ t_status r = lit "open".

(** The primary key of [tickets]: ids are distinct, positive, and not above
    the AUTOINCREMENT counter. *)
Definition ids_ok (d : DB) : Prop :=
  NoDup (t_id <$> tickets d)
  ∧ Forall (λ r, 1 ≤ t_id r ≤ tickets_seq d) (tickets d).

(** A well-formed store: both primary keys hold, every correlation row
    points to a ticket that exists, and every ticket is open or closed. *)
Definition store_ok (d : DB) : Prop :=
  ids_ok d
  ∧ NoDup (origin_key <$> messages_mapping d)
  ∧ Forall (λ m, is_Some (get_ticket (m_ticket_id m) d)) (messages_mapping d)
  ∧ Forall (λ r, t_status r = lit "open" ∨ t_status r = lit "closed") (tickets d).

(** The acknowledgement a user gets when a ticket is opened for them. *)
Definition acknowledgement (user_chat_id ticket_id : Z) : call :=
  reply_text user_chat_id
    (lit "✅ Ваш тикет #" ++ str_of_int ticket_id
     ++ lit " создан. Оператор поддержки скоро ответит.").

(** The notice an operator gets when replying to a blocked user. *)
Definition blocked_notice (chat : Z) : call :=
  reply_text chat (lit "⛔️ Этот пользователь заблокирован. Он не получит сообщение.").

(** The calls a reply makes towards a user: the one call of [reply_call],
    if there is one. *)
Definition delivery (message : Message) (user_chat_id : Z) : list call :=
  match reply_call message (mkKwargs user_chat_id None None) with
  | Some c => [c]
  | None => []
  end.

(** The name [update_topic_status] gives to the topic of a ticket. *)
Definition topic_label (status : str) (r : TicketRow) : str :=
  (if bool_decide (status = lit "closed") then lit "🔴" else lit "🟢")
  ++ lit " " ++ display_name_of (t_username r) (t_first_name r) (t_user_chat_id r).

(** The messages of [close_ticket_cmd] and [reopen_ticket_cmd]. *)
Definition unknown_ticket_notice (chat : Z) : op_call :=
  op_plain (reply_text chat (lit "Не удалось определить тикет для этого сообщения.")).

Definition closed_confirmation (chat ticket_id : Z) : op_call :=
  op_plain (reply_text chat (lit "✅ Тикет #" ++ str_of_int ticket_id ++ lit " закрыт.")).

Definition reopened_confirmation (chat ticket_id : Z) : op_call :=
  op_plain (reply_text chat (lit "♻️ Тикет #" ++ str_of_int ticket_id ++ lit " снова открыт.")).

Definition closure_notice (user : Z) : op_call :=
  op_plain (send_message (lit "✅ Обращение завершено") None (mkKwargs user None None)).

(** The calls that reach a user's chat, as opposed to the support chat. *)
Definition sent_to_user (c : op_call) : option Z :=
  match c with
  | op_plain d =>
    match kwargs_of d with
    | Some kw => Some (kw_chat_id kw)
    | None => None
    end
  | _ => None
  end.

(** The calls [update_topic_status] makes: the renaming of the topic of the
    ticket, in [per_user] mode, when the ticket exists and has a topic. *)
Definition renaming (SUPPORT_CHAT_ID ticket_id : Z) (status : str) (d : DB)
  : list op_call :=
  if bool_decide (get_topic_mode d = lit "per_user") then
    match get_ticket ticket_id d with
    | Some r =>
      match t_topic_id r with
      | Some topic_id =>
        if topic_id =? 0 then []
        else [edit_forum_topic SUPPORT_CHAT_ID topic_id (take 128 (topic_label status r))]
      | None => []
      end
    | None => []
    end
  else [].

(** The report [block_user_callback] posts after toggling. *)
Definition block_report (is_blocked_now : bool) (user_info : str) : str :=
  if is_blocked_now
  then lit "👨 " ++ user_info ++ nl ++ lit "❗️ Пользователь заблокирован"
  else lit "👨 " ++ user_info ++ nl ++ lit "❗️ Пользователь разблокирован".

(** * Properties *)

(** ** Lists scanned in rowid order *)

Section Scan.

Context {A : Type} (p : A → bool).

Lemma find_app_None (l l' : list A) :
  List.find p l = None → List.find p (l ++ l') = List.find p l'.
Proof.
  induction l as [|x l IH]; simpl; [done|].
  destruct (p x); [done | exact IH].
Qed.

Lemma find_filter_None (q : A → bool) (l : list A) :
  (∀ x, x ∈ l → p x = true → q x = false) →
  List.find p (List.filter q l) = None.
Proof.
  induction l as [|x l IH]; intros H; simpl; [done|].
  assert (IH' : List.find p (List.filter q l) = None).
  { apply IH. intros y Hy. apply H. by right. }
  destruct (q x) eqn:Hq; [|exact IH'].
  simpl. destruct (p x) eqn:Hp; [|exact IH'].
  rewrite (H x) in Hq; [done | by left | done].
Qed.

End Scan.

(** ** Message correlation index *)

Create HintDb corr.

#[local] Hint Unfold save_mapping find_user_by_support_message
  set_messages_mapping has_support_message same_origin : corr.

(** C1.  Round trip of the correlation index: after [save_mapping U M R T],
    [find_user_by_support_message R] returns exactly [(U, M, T)], provided
    every row that already carries the relayed id [R] belongs to the same
    origin message [(U, M)] (that is, [R] was not used for a different
    correlation). *)
Theorem save_mapping_find_roundtrip (U M R T : Z) (d : DB) :
  (∀ r, r ∈ messages_mapping d → m_support_message_id r = R →
        m_user_chat_id r = U ∧ m_user_message_id r = M) →
  find_user_by_support_message R (save_mapping U M R T d) = Some (U, M, T).
Proof.
  intros Hfresh. autounfold with corr. cbn [messages_mapping].
  rewrite find_app_None.
  - cbn. by rewrite Z.eqb_refl.
  - apply find_filter_None. intros r Hr HR.
    apply Z.eqb_eq in HR. destruct (Hfresh r Hr HR) as [-> ->].
    by rewrite !Z.eqb_refl.
Qed.

Lemma save_mapping_find_roundtrip_witness :
  find_user_by_support_message 900
    (save_mapping 42 7 900 1
       (mkDB [mkMapping 42 6 899 1; mkMapping 42 7 900 3] [] 0 ∅ ∅))
  = Some (42, 7, 1).
Proof.
  apply save_mapping_find_roundtrip.
  intros r Hr HR. cbn in Hr.
  apply elem_of_cons in Hr as [-> | Hr]; [cbn in HR; lia|].
  apply elem_of_cons in Hr as [-> | Hr]; [cbn; lia|].
  by apply elem_of_nil in Hr.
Defined.

(** The proviso of the round trip is needed: a relayed id already held by an
    older row of another origin resolves to that older row. *)
Lemma save_mapping_find_reused :
  find_user_by_support_message 900
    (save_mapping 43 8 900 2 (mkDB [mkMapping 42 7 900 1] [] 0 ∅ ∅))
  = Some (42, 7, 1).
Proof. reflexivity. Qed.

(** ** Block list *)

Lemma is_user_blocked_delete (U V : Z) (d : DB) :
  is_user_blocked V (set_blocked_users (delete U) d)
  = if decide (U = V) then false else is_user_blocked V d.
Proof.
  unfold is_user_blocked, set_blocked_users. cbn [blocked_users].
  rewrite lookup_delete. by case_decide.
Qed.

Lemma is_user_blocked_insert (U V : Z) (b : BlockRow) (d : DB) :
  is_user_blocked V (set_blocked_users (insert U b) d)
  = if decide (U = V) then true else is_user_blocked V d.
Proof.
  unfold is_user_blocked, set_blocked_users. cbn [blocked_users].
  rewrite lookup_insert. by case_decide.
Qed.

Lemma toggle_user_block_membership (now U A V : Z) (d : DB) :
  is_user_blocked V (toggle_user_block now U A d).1
  = if decide (U = V) then negb (is_user_blocked U d) else is_user_blocked V d.
Proof.
  unfold toggle_user_block. destruct (is_user_blocked U d) eqn:HU; cbn [fst].
  - rewrite is_user_blocked_delete. by case_decide.
  - rewrite is_user_blocked_insert. by case_decide.
Qed.

(** C6.  [toggle_user_block] deletes the row of a blocked user and returns
    [False], inserts a row for a user who is not blocked and returns [True];
    the value returned is the blocked state right after the call; a second
    call returns the opposite value and restores the membership of every
    user; the other tables are never touched. *)
Theorem toggle_user_block_spec (now1 now2 U A1 A2 : Z) (d : DB) :
  let r1 := toggle_user_block now1 U A1 d in
  let r2 := toggle_user_block now2 U A2 r1.1 in
  r1 = (if is_user_blocked U d
        then (set_blocked_users (delete U) d, false)
        else (set_blocked_users (insert U (mkBlock now1 A1)) d, true))
  ∧ r1.2 = negb (is_user_blocked U d)
  ∧ r1.2 = is_user_blocked U r1.1
  ∧ r2.2 = is_user_blocked U r2.1
  ∧ r2.2 = negb r1.2
  ∧ (∀ V, is_user_blocked V r2.1 = is_user_blocked V d)
  ∧ (∀ V, V ≠ U → blocked_users r1.1 !! V = blocked_users d !! V)
  ∧ (messages_mapping r1.1, tickets r1.1, tickets_seq r1.1, bot_settings r1.1)
    = (messages_mapping d, tickets d, tickets_seq d, bot_settings d).
Proof.
  intros r1 r2.
  assert (H1 : r1.2 = negb (is_user_blocked U d)).
  { subst r1. unfold toggle_user_block. by destruct (is_user_blocked U d). }
  assert (H1' : is_user_blocked U r1.1 = negb (is_user_blocked U d)).
  { subst r1. rewrite toggle_user_block_membership. by rewrite decide_True. }
  assert (H2 : r2.2 = negb (is_user_blocked U r1.1)).
  { subst r2. unfold toggle_user_block. by destruct (is_user_blocked U r1.1). }
  assert (H2' : is_user_blocked U r2.1 = negb (is_user_blocked U r1.1)).
  { subst r2. rewrite toggle_user_block_membership. by rewrite decide_True. }
  split_and!.
  - done.
  - done.
  - by rewrite H1, H1'.
  - by rewrite H2, H2'.
  - by rewrite H2, H1', H1.
  - intros V. subst r2. rewrite toggle_user_block_membership.
    case_decide as HV.
    + subst V. rewrite H1'. by destruct (is_user_blocked U d).
    + subst r1. rewrite toggle_user_block_membership. by rewrite decide_False.
  - intros V HV. subst r1. unfold toggle_user_block.
    destruct (is_user_blocked U d); cbn.
    + by rewrite lookup_delete_ne.
    + by rewrite lookup_insert_ne.
  - subst r1. unfold toggle_user_block. by destruct (is_user_blocked U d).
Qed.

(** ** Ticket store *)

Lemma set_status_of_id T S now r : t_id (set_status_of T S now r) = t_id r.
Proof. unfold set_status_of. by destruct (t_id r =? T). Qed.

Lemma get_ticket_update (now T T' : Z) (S : str) (d : DB) :
  get_ticket T' (update_ticket_status now T S d)
  = set_status_of T S now <$> get_ticket T' d.
Proof.
  unfold get_ticket, update_ticket_status, set_tickets. cbn [tickets].
  induction (tickets d) as [|r l IH]; [done|].
  cbn [map List.find]. rewrite set_status_of_id.
  destruct (t_id r =? T'); [done | exact IH].
Qed.

Lemma update_ticket_status_other_tables (now T : Z) (S : str) (d : DB) :
  messages_mapping (update_ticket_status now T S d) = messages_mapping d
  ∧ tickets_seq (update_ticket_status now T S d) = tickets_seq d
  ∧ blocked_users (update_ticket_status now T S d) = blocked_users d
  ∧ bot_settings (update_ticket_status now T S d) = bot_settings d.
Proof. done. Qed.

(** C8.  For an existing ticket [T], [update_ticket_status] sets its status
    to [S] and its [updated_at] to the clock reading, whatever the status
    was before and whatever [S] is (no transition is refused); the rows of
    other tickets and the other columns are kept; closing twice leaves the
    ticket closed.  The function is total: no call fails. *)
Theorem update_ticket_status_spec (now now' T : Z) (S : str) (d : DB) (r : TicketRow) :
  get_ticket T d = Some r →
  get_ticket T (update_ticket_status now T S d) = Some (with_status S now r)
  ∧ (∀ T', T' ≠ T →
       get_ticket T' (update_ticket_status now T S d) = get_ticket T' d)
  ∧ (∀ r', r' ∈ tickets (update_ticket_status now T S d) → t_id r' = T →
       t_status r' = S ∧ t_updated_at r' = now)
  ∧ length (tickets (update_ticket_status now T S d)) = length (tickets d)
  ∧ get_ticket T (update_ticket_status now' T (lit "closed")
                    (update_ticket_status now T (lit "closed") d))
    = Some (with_status (lit "closed") now' r).
Proof.
  intros Hr.
  assert (HT : t_id r = T).
  { apply List.find_some in Hr as [_ Hr]. by apply Z.eqb_eq in Hr. }
  assert (Hset : ∀ n s x, t_id x = T → set_status_of T s n x = with_status s n x).
  { intros n s x Hx. unfold set_status_of.
    by destruct (Z.eqb_spec (t_id x) T). }
  split_and!.
  - rewrite get_ticket_update, Hr. cbn. by rewrite Hset.
  - intros T' HT'. rewrite get_ticket_update.
    destruct (get_ticket T' d) as [x|] eqn:Hx; [|done].
    apply List.find_some in Hx as [_ Hx]. apply Z.eqb_eq in Hx.
    cbn. unfold set_status_of.
    destruct (t_id x =? T) eqn:E; [|done]. apply Z.eqb_eq in E. congruence.
  - intros r' Hr' Hid. unfold update_ticket_status, set_tickets in Hr'.
    cbn [tickets] in Hr'. apply list_elem_of_fmap in Hr' as (x & -> & _).
    rewrite set_status_of_id in Hid. by rewrite Hset.
  - unfold update_ticket_status, set_tickets. cbn [tickets]. apply length_map.
  - rewrite !get_ticket_update, Hr. cbn. rewrite (Hset now _ r HT).
    by rewrite Hset.
Qed.

Lemma update_ticket_status_spec_witness :
  let d := mkDB [] [mkTicket 1 42 None None (lit "open") 10 10 None;
                    mkTicket 2 43 None None (lit "closed") 11 12 (Some 5)] 2 ∅ ∅ in
  get_ticket 2 (update_ticket_status 20 2 (lit "open") d)
  = Some (mkTicket 2 43 None None (lit "open") 11 20 (Some 5)).
Proof.
  intros d.
  exact (proj1 (update_ticket_status_spec 20 21 2 (lit "open") d
                  (mkTicket 2 43 None None (lit "closed") 11 12 (Some 5))
                  eq_refl)).
Defined.

(** C10.  For a ticket id that no row carries, [update_ticket_status]
    changes nothing: the database after the call is the database before. *)
Theorem update_ticket_status_missing (now T : Z) (S : str) (d : DB) :
  (∀ r, r ∈ tickets d → t_id r ≠ T) →
  update_ticket_status now T S d = d.
Proof.
  intros Hmiss. destruct d as [ms ts sq bl st].
  unfold update_ticket_status, set_tickets. cbn in *. f_equal.
  induction ts as [|r l IH]; [done|].
  cbn [map]. f_equal.
  - unfold set_status_of.
    destruct (t_id r =? T) eqn:E; [|done].
    apply Z.eqb_eq in E. exfalso. apply (Hmiss r); [by left | done].
  - apply IH. intros x Hx. apply Hmiss. by right.
Qed.

Lemma update_ticket_status_missing_witness :
  let d := mkDB [mkMapping 42 7 900 1]
                [mkTicket 1 42 None None (lit "open") 10 10 None] 1
                {[ 50 := mkBlock 3 9 ]} {[ lit "topic_mode" := lit "single_topic" ]} in
  update_ticket_status 20 2 (lit "closed") d = d.
Proof.
  intros d. apply update_ticket_status_missing.
  intros r Hr. cbn in Hr.
  apply elem_of_cons in Hr as [-> | Hr]; [cbn; lia|].
  by apply elem_of_nil in Hr.
Defined.

Lemma newest_elem (l : list TicketRow) (acc : option TicketRow) (a : TicketRow) :
  foldl newest acc l = Some a → acc = Some a ∨ a ∈ l.
Proof.
  revert acc. induction l as [|r l IH]; intros acc H; [by left|].
  cbn in H. apply IH in H as [H | H]; [|right; by right].
  destruct acc as [b|]; cbn in H.
  - destruct (t_id b <? t_id r); injection H as <-; [right | left]; [by left | done].
  - injection H as <-. right. by left.
Qed.

Lemma t_id_le_max (l : list TicketRow) (a : TicketRow) :
  a ∈ l → t_id a ≤ foldr Z.max 0 (map t_id l).
Proof.
  induction l as [|r l IH]; intros H; [by apply elem_of_nil in H|].
  cbn. apply elem_of_cons in H as [-> | H]; [lia|].
  specialize (IH H). lia.
Qed.

(** After the INSERT of [create_ticket], the user's open ticket is the new
    one: it has the largest id of the table. *)
Lemma get_open_ticket_insert now user_chat_id username first_name topic_id d :
  get_open_ticket user_chat_id
    (insert_ticket now user_chat_id username first_name topic_id d).1
  = Some (next_ticket_id d, topic_id).
Proof.
  unfold get_open_ticket, insert_ticket. cbn [fst tickets].
  rewrite List.filter_app, foldl_app. cbn [List.filter].
  unfold is_open_ticket_of at 2. cbn [t_user_chat_id t_status].
  rewrite Z.eqb_refl, bool_decide_eq_true_2 by done. cbn [andb foldl].
  destruct (foldl newest None _) as [a|] eqn:Ha; [|done].
  apply newest_elem in Ha as [Ha | Ha]; [done|].
  apply list_elem_of_In, List.filter_In in Ha as [Ha _].
  apply list_elem_of_In, t_id_le_max in Ha.
  unfold newest. cbn [t_id].
  destruct (Z.ltb_spec (t_id a) (next_ticket_id d)) as [_ | Hge]; [done|].
  unfold next_ticket_id in Hge. lia.
Qed.

Lemma get_open_ticket_save_mapping u a b c e d :
  get_open_ticket u (save_mapping a b c e d) = get_open_ticket u d.
Proof. reflexivity. Qed.

(** ** Running the handlers *)

Lemma run_bind {A B} (m : M A) (f : A → M B) (w : World) :
  (m ≫= f) w
  = match m w with
    | (Returned a, w') => f a w'
    | (Raised, w') => (Raised, w')
    end.
Proof. reflexivity. Qed.

Lemma run_ret {A} (a : A) (w : World) : (mret a : M A) w = (Returned a, w).
Proof. reflexivity. Qed.

Lemma run_query {A} (f : DB → A) (w : World) : query f w = (Returned (f (db w)), w).
Proof. reflexivity. Qed.

Section HandlerFacts.

Variable SUPPORT_CHAT_ID : Z.
Variable SUPPORT_TOPIC_ID : option Z.
Variable transport : list call → call → option Z.

Lemma run_bot (c : call) (w : World) :
  bot transport c w
  = (match transport (trace w) c with Some r => Returned r | None => Raised end,
     mkWorld (db w) (trace w ++ [c])).
Proof. unfold bot. by destruct (transport (trace w) c). Qed.

(** A call whose exception is caught always returns: the transport's answer,
    with the call appended to the trace. *)
Lemma run_try_bot (c : call) (w : World) :
  try_ (bot transport c) w
  = (Returned (transport (trace w) c), mkWorld (db w) (trace w ++ [c])).
Proof. unfold try_, bot. by destruct (transport (trace w) c). Qed.

(** [create_ticket] always returns, and always inserts exactly one row. *)
Lemma create_ticket_run now user_chat_id username first_name w :
  ∃ topic_id calls,
    create_ticket SUPPORT_CHAT_ID transport now user_chat_id username first_name w
    = (Returned (next_ticket_id (db w), topic_id),
       mkWorld (insert_ticket now user_chat_id username first_name topic_id (db w)).1
               (trace w ++ calls)).
Proof.
  unfold create_ticket. rewrite run_bind, run_query.
  destruct (bool_decide (get_topic_mode (db w) = lit "per_user")).
  - rewrite run_bind, run_try_bot, run_bind. cbn.
    destruct (truthy_int _).
    + rewrite run_bind, run_try_bot. cbn.
      eexists _, _. rewrite <- app_assoc. reflexivity.
    + eexists _, _. reflexivity.
  - cbn. eexists None, []. by rewrite app_nil_r.
Qed.

(** C7.  In [per_user] mode, when [create_forum_topic] raises, the ticket
    is created all the same: [create_ticket] returns the new id with no
    topic, the row inserted is open and has a null [topic_id], and nothing
    else changes.  The name handed to the transport is the first 128
    characters of the label, so a long display name is cut, not refused. *)
Theorem create_ticket_topic_failure now user_chat_id username first_name w :
  let topic_name := lit "🟢 " ++ display_name_of username first_name user_chat_id in
  let request := create_forum_topic SUPPORT_CHAT_ID (take 128 topic_name) in
  get_topic_mode (db w) = lit "per_user" →
  transport (trace w) request = None →
  create_ticket SUPPORT_CHAT_ID transport now user_chat_id username first_name w
  = (Returned (next_ticket_id (db w), None),
     mkWorld
       (mkDB (messages_mapping (db w))
             (tickets (db w)
              ++ [mkTicket (next_ticket_id (db w)) user_chat_id username first_name
                           (lit "open") now now None])
             (next_ticket_id (db w)) (blocked_users (db w)) (bot_settings (db w)))
       (trace w ++ [request]))
  ∧ (length (take 128 topic_name) ≤ 128)%nat
  ∧ take 128 topic_name `prefix_of` topic_name
  ∧ ((length topic_name ≤ 128)%nat → take 128 topic_name = topic_name).
Proof.
  intros topic_name request Hmode Hfail. split_and!.
  - unfold create_ticket. rewrite run_bind, run_query, Hmode.
    rewrite bool_decide_eq_true_2 by done.
    rewrite run_bind, run_try_bot. fold topic_name request. rewrite Hfail.
    reflexivity.
  - rewrite length_take. lia.
  - apply prefix_take.
  - apply take_ge.
Qed.

(** The calls [create_ticket] makes are not relay calls. *)
Lemma create_ticket_calls now user_chat_id username first_name w :
  ∃ topic_id calls,
    create_ticket SUPPORT_CHAT_ID transport now user_chat_id username first_name w
    = (Returned (next_ticket_id (db w), topic_id),
       mkWorld (insert_ticket now user_chat_id username first_name topic_id (db w)).1
               (trace w ++ calls))
    ∧ Forall (λ c, is_relay c = false) calls.
Proof.
  unfold create_ticket. rewrite run_bind, run_query.
  destruct (bool_decide (get_topic_mode (db w) = lit "per_user")).
  - rewrite run_bind, run_try_bot, run_bind. cbn.
    destruct (truthy_int _).
    + rewrite run_bind, run_try_bot. cbn.
      eexists _, _. rewrite <- app_assoc. split; [reflexivity|].
      repeat constructor.
    + eexists _, _. split; [reflexivity|]. repeat constructor.
  - cbn. eexists None, []. rewrite app_nil_r. split; [reflexivity | constructor].
Qed.

Lemma relay_call_no_content message header kw :
  no_content message = true → relay_call message header kw = None.
Proof.
  unfold no_content, relay_call.
  destruct (photo message), (video message), (document message),
    (voice message), (audio message); try done.
  by destruct (text message) as [[|]|].
Qed.

Lemma relay_call_is_relay message header kw c :
  relay_call message header kw = Some c → kwargs_of c = Some kw.
Proof.
  unfold relay_call.
  destruct (photo message); [|by intros [= <-]].
  destruct (video message); [by intros [= <-]|].
  destruct (document message); [by intros [= <-]|].
  destruct (voice message); [by intros [= <-]|].
  destruct (audio message); [by intros [= <-]|].
  destruct (text message) as [[|]|]; [done | by intros [= <-] | done].
Qed.

(** The [try] block always returns; it appends at most the relay call and
    saves a mapping exactly when that call returns. *)
Lemma run_relay message header kw ticket_id w :
  relay transport message header kw ticket_id w
  = (Returned (),
     match relay_call message header kw with
     | Some c =>
       mkWorld
         match transport (trace w) c with
         | Some support_message_id =>
           save_mapping (chat_id message) (message_id message)
                        support_message_id ticket_id (db w)
         | None => db w
         end
         (trace w ++ [c])
     | None => w
     end).
Proof.
  unfold relay. destruct (relay_call message header kw) as [c|]; [|done].
  rewrite run_bind, run_try_bot. by destruct (transport (trace w) c).
Qed.

(** The three ways [forward_to_support] can go: the sender is blocked; the
    sender has an open ticket, which is used; or a ticket is created, the
    sender is told so, and (unless that reply raises) the message is relayed
    under the new ticket. *)
Lemma forward_to_support_cases now message w :
  let run := forward_to_support SUPPORT_CHAT_ID SUPPORT_TOPIC_ID transport now message w in
  let user_chat_id := chat_id message in
  let user := from_user message in
  let topic_mode := get_topic_mode (db w) in
  (is_user_blocked user_chat_id (db w) = true ∧ run = (Returned (), w))
  ∨ (is_user_blocked user_chat_id (db w) = false
     ∧ ∃ ticket_id topic_id,
         get_open_ticket user_chat_id (db w) = Some (ticket_id, topic_id)
         ∧ run = relay transport message
                   (header_of topic_mode false ticket_id user)
                   (send_kwargs_for SUPPORT_CHAT_ID SUPPORT_TOPIC_ID topic_mode topic_id
                                    user_chat_id)
                   ticket_id w)
  ∨ (is_user_blocked user_chat_id (db w) = false
     ∧ get_open_ticket user_chat_id (db w) = None
     ∧ ∃ topic_id calls,
         Forall (λ c, is_relay c = false) calls
         ∧ let ticket_id := next_ticket_id (db w) in
           let w1 :=
             mkWorld (insert_ticket now user_chat_id (u_username user)
                                    (Some (u_first_name user)) topic_id (db w)).1
                     (trace w ++ calls) in
           run = (Raised, w1)
           ∨ run = relay transport message
                     (header_of topic_mode true ticket_id user)
                     (send_kwargs_for SUPPORT_CHAT_ID SUPPORT_TOPIC_ID topic_mode topic_id
                                      user_chat_id)
                     ticket_id w1).
Proof.
  intros run user_chat_id user topic_mode. subst run.
  unfold forward_to_support. rewrite run_bind, run_query.
  fold user_chat_id user.
  destruct (is_user_blocked user_chat_id (db w)) eqn:Hb; [by left|].
  right. rewrite run_bind, run_query.
  destruct (get_open_ticket user_chat_id (db w)) as [[ticket_id topic_id]|] eqn:Ho.
  - left. split; [done|]. by exists ticket_id, topic_id.
  - right. split; [done|]. split; [done|].
    destruct (create_ticket_calls now user_chat_id (u_username user)
                (Some (u_first_name user)) w) as (topic_id & calls & Hrun & Hcalls).
    rewrite !run_bind, Hrun. cbn [fst snd]. rewrite run_bind.
    match goal with |- context [bot transport ?c ?w1] =>
      exists topic_id, (calls ++ [c]); rewrite !(run_bot c w1); cbn [db trace];
      destruct (transport (trace w ++ calls) c) end.
    + split; [apply Forall_app; split; [done | by repeat constructor]|].
      right. cbv beta iota. rewrite run_ret. cbv beta iota.
      rewrite run_bind, run_query, (app_assoc (trace w) calls). reflexivity.
    + split; [apply Forall_app; split; [done | by repeat constructor]|].
      left. rewrite (app_assoc (trace w) calls). reflexivity.
Qed.

(** C5.  A message from a blocked user is dropped at once: the handler
    returns with the database and the trace of transport calls exactly as
    they were, so nothing is relayed, nothing is sent back to the user, no
    ticket is created and no correlation is saved. *)
Theorem forward_to_support_blocked now message w :
  is_user_blocked (chat_id message) (db w) = true →
  forward_to_support SUPPORT_CHAT_ID SUPPORT_TOPIC_ID transport now message w
  = (Returned (), w).
Proof.
  intros Hb. unfold forward_to_support. rewrite run_bind, run_query.
  by rewrite Hb.
Qed.

Lemma per_user_not_single_topic : lit "per_user" ≠ lit "single_topic".
Proof. intros H. vm_compute in H. discriminate H. Qed.

(** The thread chosen by the [if]/[elif] of [forward_to_support], case by
    case. *)
Lemma message_thread_id_for_cases (topic_mode : str) (topic_id : option Z) :
  let thread := message_thread_id_for SUPPORT_TOPIC_ID topic_mode topic_id in
  (topic_mode = lit "per_user" → truthy_int topic_id = true → thread = topic_id)
  ∧ (topic_mode = lit "single_topic" → truthy_int SUPPORT_TOPIC_ID = true →
     thread = SUPPORT_TOPIC_ID)
  ∧ (topic_mode = lit "single_topic" → truthy_int SUPPORT_TOPIC_ID = false →
     thread = None)
  ∧ (topic_mode ≠ lit "single_topic" →
     (topic_mode = lit "per_user" → truthy_int topic_id = false) →
     thread = None).
Proof.
  intros thread. subst thread. unfold message_thread_id_for. split_and!.
  - intros -> ->. by rewrite bool_decide_eq_true_2.
  - intros -> ->.
    rewrite (bool_decide_eq_false_2 (lit "single_topic" = lit "per_user"))
      by (intros H; by apply per_user_not_single_topic).
    by rewrite bool_decide_eq_true_2.
  - intros -> ->.
    rewrite (bool_decide_eq_false_2 (lit "single_topic" = lit "per_user"))
      by (intros H; by apply per_user_not_single_topic).
    by rewrite andb_false_r.
  - intros Hs Hp.
    rewrite (bool_decide_eq_false_2 (topic_mode = lit "single_topic")) by done.
    cbn [andb]. case_bool_decide as Hm; [|done].
    by rewrite (Hp Hm).
Qed.

(** What the [try] block adds to the trace is the relay call, which carries
    the keyword arguments it was given; the tickets are not touched. *)
Lemma relay_effect message header kw ticket_id w :
  let w' := (relay transport message header kw ticket_id w).2 in
  tickets (db w') = tickets (db w)
  ∧ (∀ u, get_open_ticket u (db w') = get_open_ticket u (db w))
  ∧ ∃ added, trace w' = trace w ++ added
             ∧ ∀ c, c ∈ added → kwargs_of c = Some kw.
Proof.
  rewrite run_relay. cbn [snd].
  destruct (relay_call message header kw) as [c0|] eqn:Hc.
  - cbn [db trace]. split_and!.
    + by destruct (transport (trace w) c0).
    + intros u. by destruct (transport (trace w) c0).
    + exists [c0]. split; [done|]. intros c Hin.
      apply list_elem_of_singleton in Hin as ->.
      by eapply relay_call_is_relay.
  - split_and!; [done | done |]. exists []. split; [by rewrite app_nil_r|].
    intros c Hin. by apply elem_of_nil in Hin.
Qed.

(** C3.  Every relay call that [forward_to_support] makes goes to the
    support chat, in the thread given by the topic mode and the [topic_id]
    of the sender's open ticket: that topic in [per_user] mode when the
    ticket has one; [SUPPORT_TOPIC_ID] in [single_topic] mode when one is
    configured, and the root of the chat when none is; the root of the chat
    in every other case, a [per_user] ticket without topic included.  (A
    topic is set, or configured, when it is neither null nor zero, as
    Python's truth test has it.) *)
Theorem forward_to_support_delivery_target now message w added c kw :
  let w' := (forward_to_support SUPPORT_CHAT_ID SUPPORT_TOPIC_ID transport
               now message w).2 in
  trace w' = trace w ++ added →
  c ∈ added → is_relay c = true → kwargs_of c = Some kw →
  ∃ ticket_id topic_id,
    get_open_ticket (chat_id message) (db w') = Some (ticket_id, topic_id)
    ∧ kw_chat_id kw = SUPPORT_CHAT_ID
    ∧ let topic_mode := get_topic_mode (db w) in
      let thread := kw_message_thread_id kw in
      (topic_mode = lit "per_user" → truthy_int topic_id = true → thread = topic_id)
      ∧ (topic_mode = lit "single_topic" → truthy_int SUPPORT_TOPIC_ID = true →
         thread = SUPPORT_TOPIC_ID)
      ∧ (topic_mode = lit "single_topic" → truthy_int SUPPORT_TOPIC_ID = false →
         thread = None)
      ∧ (topic_mode ≠ lit "single_topic" →
         (topic_mode = lit "per_user" → truthy_int topic_id = false) →
         thread = None).
Proof.
  intros w' Htrace Hin Hrel Hkw. subst w'.
  destruct (forward_to_support_cases now message w)
    as [[_ Hrun] | [(_ & ticket_id & topic_id & Hopen & Hrun)
                   | (_ & _ & topic_id & calls & Hcalls & [Hrun | Hrun])]];
    rewrite Hrun in Htrace |- *; clear Hrun.
  - cbn in Htrace. rewrite <- (app_nil_r (trace w)) in Htrace at 1.
    apply app_inv_head in Htrace as <-. by apply elem_of_nil in Hin.
  - match type of Htrace with context [relay _ _ ?h ?k ?t ?w0] =>
      destruct (relay_effect message h k t w0) as (_ & Hget & added' & Ha & Hk) end.
    rewrite Ha in Htrace. apply app_inv_head in Htrace as ->.
    rewrite Hget, Hopen. exists ticket_id, topic_id. split; [done|].
    specialize (Hk c Hin). rewrite Hk in Hkw. injection Hkw as <-.
    split; [done|]. apply message_thread_id_for_cases.
  - cbn in Htrace. apply app_inv_head in Htrace as <-.
    rewrite Forall_forall in Hcalls.
    rewrite (Hcalls c) in Hrel; [done | by apply list_elem_of_In].
  - match type of Htrace with context [relay _ _ ?h ?k ?t ?w0] =>
      destruct (relay_effect message h k t w0) as (_ & Hget & added' & Ha & Hk) end.
    rewrite Ha in Htrace. cbn [trace] in Htrace.
    rewrite <- app_assoc in Htrace. apply app_inv_head in Htrace as <-.
    rewrite Hget. cbn [db]. rewrite get_open_ticket_insert.
    exists (next_ticket_id (db w)), topic_id. split; [done|].
    apply elem_of_app in Hin as [Hin | Hin].
    { rewrite Forall_forall in Hcalls.
    rewrite (Hcalls c) in Hrel; [done | by apply list_elem_of_In]. }
    specialize (Hk c Hin). rewrite Hk in Hkw. injection Hkw as <-.
    split; [done|]. apply message_thread_id_for_cases.
Qed.

(** When the sender is not blocked and has no open ticket, the ticket is
    created before the content of the message is looked at. *)
Lemma no_content_opens_ticket now message w :
  no_content message = true →
  is_user_blocked (chat_id message) (db w) = false →
  get_open_ticket (chat_id message) (db w) = None →
  ∃ topic_id,
    tickets (db (forward_to_support SUPPORT_CHAT_ID SUPPORT_TOPIC_ID transport
                   now message w).2)
    = tickets (db w)
      ++ [mkTicket (next_ticket_id (db w)) (chat_id message)
                   (u_username (from_user message))
                   (Some (u_first_name (from_user message)))
                   (lit "open") now now topic_id].
Proof.
  intros Hno Hb Hopen.
  destruct (forward_to_support_cases now message w)
    as [[Hb' _] | [(_ & ticket_id & topic_id & Hopen' & _)
                  | (_ & _ & topic_id & calls & _ & Hrun)]]; [congruence.. |].
  exists topic_id. cbv zeta in Hrun.
  rewrite run_relay, relay_call_no_content in Hrun by done.
  by destruct Hrun as [-> | ->].
Qed.

(** Without content there is no relay call, so the [try] block of the
    handler does nothing, and what is left of the handler is the lookup or
    creation of the ticket. *)
Lemma no_content_effect now message w :
  no_content message = true →
  let w' := (forward_to_support SUPPORT_CHAT_ID SUPPORT_TOPIC_ID transport
               now message w).2 in
  messages_mapping (db w') = messages_mapping (db w)
  ∧ blocked_users (db w') = blocked_users (db w)
  ∧ bot_settings (db w') = bot_settings (db w)
  ∧ (∃ added, trace w' = trace w ++ added ∧ Forall (λ c, is_relay c = false) added)
  ∧ (is_user_blocked (chat_id message) (db w) = true
     ∨ is_Some (get_open_ticket (chat_id message) (db w)) → w' = w).
Proof.
  intros Hno w'. subst w'.
  assert (Hrelay : ∀ h k t w0, relay transport message h k t w0 = (Returned (), w0)).
  { intros. by rewrite run_relay, relay_call_no_content. }
  destruct (forward_to_support_cases now message w)
    as [[Hb Hrun] | [(Hb & ticket_id & topic_id & Hopen & Hrun)
                   | (Hb & Hopen & topic_id & calls & Hcalls & Hrun)]].
  - rewrite Hrun. cbn [snd]. split_and!; try done.
    exists []. by rewrite app_nil_r.
  - rewrite Hrun, Hrelay. cbn [snd]. split_and!; try done.
    exists []. by rewrite app_nil_r.
  - cbv zeta in Hrun. rewrite Hrelay in Hrun.
    assert (Hw : ∃ o, forward_to_support SUPPORT_CHAT_ID SUPPORT_TOPIC_ID transport
                        now message w
                      = (o, mkWorld (insert_ticket now (chat_id message)
                                       (u_username (from_user message))
                                       (Some (u_first_name (from_user message)))
                                       topic_id (db w)).1
                                    (trace w ++ calls))).
    { destruct Hrun as [-> | ->]; eauto. }
    destruct Hw as [o ->]. cbn [snd db trace]. split_and!; try done.
    + by exists calls.
    + intros [Hb' | [x Hx]]; congruence.
Qed.

(** C2 (amended).  A message with no text and no attachment of a relayed
    kind is never relayed and never gets a correlation row, and the block
    list and the settings are kept; the whole state, tickets included, is
    left as it was when the sender is blocked or already has an open
    ticket.  For a sender who is neither, the ticket is opened as for any
    first message, the lookup-or-create step coming before the content is
    looked at. *)
Theorem forward_to_support_no_content now message w :
  no_content message = true →
  let w' := (forward_to_support SUPPORT_CHAT_ID SUPPORT_TOPIC_ID transport
               now message w).2 in
  messages_mapping (db w') = messages_mapping (db w)
  ∧ blocked_users (db w') = blocked_users (db w)
  ∧ bot_settings (db w') = bot_settings (db w)
  ∧ (∃ added, trace w' = trace w ++ added ∧ Forall (λ c, is_relay c = false) added)
  ∧ (is_user_blocked (chat_id message) (db w) = true
     ∨ is_Some (get_open_ticket (chat_id message) (db w)) → w' = w)
  ∧ (is_user_blocked (chat_id message) (db w) = false →
     get_open_ticket (chat_id message) (db w) = None →
     ∃ topic_id,
       tickets (db w')
       = tickets (db w)
         ++ [mkTicket (next_ticket_id (db w)) (chat_id message)
                      (u_username (from_user message))
                      (Some (u_first_name (from_user message)))
                      (lit "open") now now topic_id]).
Proof.
  intros Hno w'.
  destruct (no_content_effect now message w Hno) as (H1 & H2 & H3 & H4 & H5).
  split_and!; [done.. |].
  by apply no_content_opens_ticket.
Qed.

(** The caption of the incoming message is put after the header for a
    photo, a video, a document and an audio; a voice message is sent with
    the header alone. *)
Lemma relay_call_caption message header kw c :
  relay_call message header kw = Some c →
  caption_of c = None
  ∨ caption_of c = Some (caption_text header message)
  ∨ ∃ file, voice message = Some file ∧ c = send_voice file header kw.
Proof.
  unfold relay_call.
  destruct (photo message); [|intros [= <-]; right; by left].
  destruct (video message); [intros [= <-]; right; by left|].
  destruct (document message); [intros [= <-]; right; by left|].
  destruct (voice message); [intros [= <-]; right; right; by eexists|].
  destruct (audio message); [intros [= <-]; right; by left|].
  destruct (text message) as [[|]|]; [done | intros [= <-]; by left | done].
Qed.

(** [reply_from_support] never writes to the database. *)
Lemma reply_from_support_db message w :
  db (reply_from_support SUPPORT_CHAT_ID transport message w).2 = db w.
Proof.
  unfold reply_from_support.
  destruct (negb _); [done|].
  destruct (reply_to_message message) as [replied_msg|]; [|done].
  rewrite run_bind, run_query.
  destruct (find_user_by_support_message replied_msg (db w)) as [[[u m] t]|]; [|done].
  rewrite run_bind, run_query.
  destruct (is_user_blocked u (db w)).
  - rewrite run_bind, run_bot. by destruct (transport _ _).
  - destruct (reply_call _ _); [|done]. by rewrite run_bind, run_try_bot.
Qed.

End HandlerFacts.

(** ** Timestamps of tickets *)

Lemma times_ok_mono (t now : Z) (r : TicketRow) :
  t ≤ now → times_ok t r → times_ok now r.
Proof. unfold times_ok. lia. Qed.

Lemma times_ok_all_mono (t now : Z) (l : list TicketRow) :
  t ≤ now → Forall (times_ok t) l → Forall (times_ok now) l.
Proof.
  intros Ht. induction 1 as [|r l Hr _ IH]; constructor; [|exact IH].
  by apply times_ok_mono with t.
Qed.

Lemma insert_ticket_times t now u un fn top d :
  t ≤ now →
  Forall (times_ok t) (tickets d) →
  Forall (times_ok now) (tickets (insert_ticket now u un fn top d).1).
Proof.
  intros Ht H. cbn. apply Forall_app. split.
  - by apply times_ok_all_mono with t.
  - repeat constructor; cbn; lia.
Qed.

Lemma update_ticket_status_times t now T S d :
  t ≤ now →
  Forall (times_ok t) (tickets d) →
  Forall (times_ok now) (tickets (update_ticket_status now T S d)).
Proof.
  intros Ht H. unfold update_ticket_status, set_tickets. cbn [tickets].
  induction H as [|r l [Hr1 Hr2] _ IH]; cbn [map]; constructor; [|exact IH].
  unfold set_status_of. destruct (t_id r =? T); unfold times_ok; cbn; lia.
Qed.

(** [update_ticket_status] keeps [created_at] and, under a clock that does
    not go back, never moves [updated_at] backwards. *)
Lemma set_status_of_forward t now T S r :
  t ≤ now → times_ok t r →
  t_created_at (set_status_of T S now r) = t_created_at r
  ∧ t_updated_at r ≤ t_updated_at (set_status_of T S now r).
Proof.
  intros Ht [H1 H2]. unfold set_status_of.
  destruct (t_id r =? T); cbn; lia.
Qed.

Section ReachabilityFacts.

Variable SUPPORT_CHAT_ID : Z.
Variable SUPPORT_TOPIC_ID : option Z.
Variable transport : list call → call → option Z.

Lemma forward_to_support_times t now message w :
  t ≤ now →
  Forall (times_ok t) (tickets (db w)) →
  Forall (times_ok now)
    (tickets (db (forward_to_support SUPPORT_CHAT_ID SUPPORT_TOPIC_ID transport
                    now message w).2)).
Proof.
  intros Ht H.
  assert (Hkeep : Forall (times_ok now) (tickets (db w))).
  { by apply times_ok_all_mono with t. }
  destruct (forward_to_support_cases SUPPORT_CHAT_ID SUPPORT_TOPIC_ID transport
              now message w)
    as [[_ Hrun] | [(_ & ticket_id & topic_id & _ & Hrun)
                   | (_ & _ & topic_id & calls & _ & Hrun)]].
  - by rewrite Hrun.
  - rewrite Hrun.
    match goal with |- context [relay _ _ ?h ?k ?i ?w0] =>
      destruct (relay_effect transport message h k i w0) as (-> & _) end.
    done.
  - cbv zeta in Hrun. destruct Hrun as [-> | ->].
    + by apply insert_ticket_times with t.
    + match goal with |- context [relay _ _ ?h ?k ?i ?w0] =>
        destruct (relay_effect transport message h k i w0) as (-> & _) end.
      by apply insert_ticket_times with t.
Qed.

Lemma reachable_times clock w :
  reachable SUPPORT_CHAT_ID SUPPORT_TOPIC_ID transport clock w →
  Forall (times_ok clock) (tickets (db w)).
Proof.
  induction 1 as [t0 | t w now u un fn _ IH Ht | t w now message _ IH Ht
                 | t w message _ IH | t w now T S _ IH Ht
                 | t w now u a _ IH Ht | t w u m s i _ IH | t w k v _ IH].
  - constructor.
  - destruct (create_ticket_run SUPPORT_CHAT_ID transport now u un fn w)
      as (top & calls & ->).
    by apply insert_ticket_times with t.
  - by apply forward_to_support_times with t.
  - by rewrite reply_from_support_db.
  - by apply update_ticket_status_times with t.
  - cbn [db]. unfold toggle_user_block.
    destruct (is_user_blocked u (db w)); cbn [fst tickets set_blocked_users];
      by apply times_ok_all_mono with t.
  - exact IH.
  - exact IH.
Qed.

(** C9.  In every state the bot reaches from an empty database under a
    clock that does not go back, every ticket has
    [created_at <= updated_at].  [create_ticket] writes the same clock
    reading to both columns of the row it inserts, and
    [update_ticket_status] keeps [created_at] and moves [updated_at] to the
    new reading, which is not before the old one. *)
Theorem created_at_le_updated_at clock w :
  reachable SUPPORT_CHAT_ID SUPPORT_TOPIC_ID transport clock w →
  (∀ r, r ∈ tickets (db w) → t_created_at r ≤ t_updated_at r)
  ∧ (∀ now u un fn,
       ∃ r, tickets (db (create_ticket SUPPORT_CHAT_ID transport now u un fn w).2)
            = tickets (db w) ++ [r]
            ∧ t_created_at r = now ∧ t_updated_at r = now)
  ∧ (∀ now T S r, clock ≤ now → r ∈ tickets (db w) →
       t_created_at (set_status_of T S now r) = t_created_at r
       ∧ t_updated_at r ≤ t_updated_at (set_status_of T S now r)).
Proof.
  intros Hreach. apply reachable_times in Hreach.
  rewrite List.Forall_forall in Hreach. split_and!.
  - intros r Hr. apply list_elem_of_In, Hreach in Hr. by destruct Hr.
  - intros now u un fn.
    destruct (create_ticket_run SUPPORT_CHAT_ID transport now u un fn w)
      as (top & calls & ->).
    by eexists.
  - intros now T S r Hnow Hr. apply set_status_of_forward with clock; [done|].
    by apply Hreach, list_elem_of_In.
Qed.

End ReachabilityFacts.

(** ** The properties on sample data *)

(** C2, as first stated, fails: a sticker from a user without open ticket
    is not relayed, yet a ticket is created for it before the content of the
    message is looked at. *)
Lemma forward_to_support_sticker_creates_ticket :
  no_content sticker_message = true
  ∧ tickets (db start_world) = []
  ∧ tickets (db (forward_to_support (-1001) None answering 1000
                   sticker_message start_world).2)
    = [mkTicket 1 42 (Some (lit "alice")) (Some (lit "Alice")) (lit "open")
                1000 1000 (Some 100)]
  ∧ db (forward_to_support (-1001) None answering 1000
          sticker_message start_world).2
    ≠ db start_world.
Proof.
  split_and!; [by vm_compute.. |].
  intros H. apply (f_equal tickets) in H. vm_compute in H. discriminate H.
Qed.

Lemma forward_to_support_no_content_witness :
  let w := (forward_to_support (-1001) None answering 1000 text_message start_world).2 in
  (forward_to_support (-1001) None answering 1001 sticker_message w).2 = w.
Proof.
  intros w.
  refine (proj1 (proj2 (proj2 (proj2 (proj2
            (forward_to_support_no_content (-1001) None answering 1001
               sticker_message w eq_refl))))) _).
  right. vm_compute. eexists. reflexivity.
Defined.

Lemma forward_to_support_blocked_witness :
  let w := mkWorld (toggle_user_block 5 42 1 empty_db).1 [] in
  forward_to_support (-1001) None answering 1000 text_message w = (Returned (), w).
Proof.
  intros w. apply forward_to_support_blocked. by vm_compute.
Defined.

Lemma forward_to_support_delivery_target_witness :
  let w := mkWorld (set_topic_mode (lit "single_topic") empty_db) [] in
  let w' := (forward_to_support (-1001) (Some 5) answering 1000 text_message w).2 in
  let c := List.last (trace w') (reply_text 0 []) in
  let kw := default (mkKwargs 0 None None) (kwargs_of c) in
  kw_message_thread_id kw = Some 5.
Proof.
  intros w w' c kw.
  assert (Hin : c ∈ trace w').
  { apply list_elem_of_In. vm_compute. tauto. }
  destruct (forward_to_support_delivery_target (-1001) (Some 5) answering 1000
              text_message w (trace w') c kw eq_refl Hin eq_refl eq_refl)
    as (ticket_id & topic_id & _ & _ & _ & Hsingle & _).
  exact (Hsingle eq_refl eq_refl).
Defined.

Lemma create_ticket_topic_failure_witness :
  (create_ticket (-1001) no_topics 1000 42 (Some (replicate 200 97%N)) None
                 start_world).1
  = Returned (1, None).
Proof.
  rewrite (proj1 (create_ticket_topic_failure (-1001) no_topics 1000 42
                    (Some (replicate 200 97%N)) None start_world eq_refl eq_refl)).
  reflexivity.
Defined.

Lemma created_at_le_updated_at_witness :
  let w := (forward_to_support (-1001) None answering 1000 text_message start_world).2 in
  let w' := mkWorld (update_ticket_status 2000 1 (lit "closed") (db w)) (trace w) in
  Forall (λ r, t_created_at r ≤ t_updated_at r) (tickets (db w')).
Proof.
  intros w w'.
  assert (Hreach : reachable (-1001) None answering 2000 w').
  { apply reach_update_ticket_status with 1000; [|lia].
    apply reach_forward_to_support with 0; [|lia].
    apply reach_start. }
  apply List.Forall_forall. intros r Hr.
  apply (proj1 (created_at_le_updated_at (-1001) None answering 2000 w' Hreach)).
  by apply list_elem_of_In.
Defined.

(** C4 on a voice message with a caption: the relay sends the voice with
    the header alone, although the caption text for this message is the
    header followed by the caption; the reply path in the other direction
    does pass the caption of a voice message on. *)
Theorem relay_call_voice_drops_caption (header : str) (kw : SendKwargs) :
  caption voice_message = Some (lit "listen")
  ∧ relay_call voice_message header kw = Some (send_voice (lit "voice-1") header kw)
  ∧ caption_text header voice_message = header ++ nl ++ nl ++ lit "listen"
  ∧ caption_text header voice_message ≠ header
  ∧ reply_call voice_message kw
    = Some (send_voice (lit "voice-1") (lit "listen") kw)
  ∧ List.last (trace (forward_to_support (-1001) None answering 1000
                        voice_message start_world).2)
              (reply_text 0 [])
    = send_voice (lit "voice-1") (lit "💬 Alice (@alice):")
        (mkKwargs (-1001) (Some 100) (Some (lit "block_42"))).
Proof.
  split_and!.
  - reflexivity.
  - reflexivity.
  - reflexivity.
  - intros H. apply (f_equal length) in H.
    change (caption_text header voice_message)
      with (header ++ nl ++ nl ++ lit "listen") in H.
    rewrite !length_app in H. vm_compute (length (lit "listen")) in H.
    cbn in H. lia.
  - reflexivity.
  - by vm_compute.
Qed.

(** The first message of a user: a ticket is opened, the message is relayed
    into the new topic, and the relayed message resolves back to the user's
    message and the ticket. *)
Example first_message_scenario :
  let w := (forward_to_support (-1001) None answering 1000 text_message start_world).2 in
  get_open_ticket 42 (db w) = Some (1, Some 100)
  ∧ find_user_by_support_message 103 (db w) = Some (42, 7, 1)
  ∧ get_ticket_by_support_message 103 (db w) = Some 1
  ∧ List.last (trace w) (reply_text 0 [])
    = send_message (lit "💬 Alice (@alice):" ++ nl ++ nl ++ lit "hello") None
        (mkKwargs (-1001) (Some 100) (Some (lit "block_42"))).
Proof. by vm_compute. Qed.

(** Closing that ticket makes the next message of the user open a second
    one. *)
Example closed_ticket_scenario :
  let w := (forward_to_support (-1001) None answering 1000 text_message start_world).2 in
  let w1 := mkWorld (update_ticket_status 2000 1 (lit "closed") (db w)) (trace w) in
  let w2 := (forward_to_support (-1001) None answering 3000 text_message w1).2 in
  get_open_ticket 42 (db w1) = None
  ∧ t_id <$> tickets (db w2) = [1; 2]
  ∧ t_status <$> tickets (db w2) = [lit "closed"; lit "open"].
Proof. by vm_compute. Qed.

(** * Further properties of the store *)

(** ** Settings *)

(** A setting reads back what was last written under its key, whatever the
    default; a key never written reads as the caller's default; writing does
    not touch other keys or other tables, and the last write wins. *)
Theorem get_setting_set_setting (key key' value value' default : str) (d : DB) :
  get_setting key default (set_setting key value d) = value
  ∧ (key' ≠ key →
     get_setting key' default (set_setting key value d) = get_setting key' default d)
  ∧ (bot_settings d !! key = None → get_setting key default d = default)
  ∧ set_setting key value (set_setting key value' d) = set_setting key value d
  ∧ get_topic_mode (set_topic_mode value d) = value
  ∧ (messages_mapping (set_setting key value d), tickets (set_setting key value d),
     tickets_seq (set_setting key value d), blocked_users (set_setting key value d))
    = (messages_mapping d, tickets d, tickets_seq d, blocked_users d).
Proof.
  unfold get_topic_mode, set_topic_mode, get_setting, set_setting, set_bot_settings.
  cbn [bot_settings messages_mapping tickets tickets_seq blocked_users].
  split_and!.
  - by rewrite lookup_insert_eq.
  - intros Hne. by rewrite lookup_insert_ne.
  - by intros ->.
  - by rewrite insert_insert_eq.
  - by rewrite lookup_insert_eq.
  - done.
Qed.

(** ** Correlation index *)

Section ScanMore.

Context {A : Type} (p : A → bool).

Lemma find_app_Some (l l' : list A) (x : A) :
  List.find p l = Some x → List.find p (l ++ l') = Some x.
Proof.
  induction l as [|y l IH]; simpl; [done|].
  destruct (p y); [done | exact IH].
Qed.

(** Filtering rows out does not change what the scan finds, as long as the
    row found is kept. *)
Lemma find_filter_kept (q : A → bool) (l : list A) (x : A) :
  List.find p l = Some x → q x = true →
  List.find p (List.filter q l) = Some x.
Proof.
  intros Hfind Hq.
  induction l as [|y l IH]; simpl in *; [done|].
  destruct (p y) eqn:Hp.
  - injection Hfind as ->. rewrite Hq. simpl. by rewrite Hp.
  - destruct (q y); simpl; [rewrite Hp|]; by apply IH.
Qed.

End ScanMore.

Lemma origin_key_eqb (U M : Z) (r : MappingRow) :
  same_origin U M r = true ↔ origin_key r = (U, M).
Proof.
  unfold same_origin, origin_key. rewrite andb_true_iff, !Z.eqb_eq.
  split; [by intros [-> ->] | by intros [= -> ->]].
Qed.

Lemma elem_of_filter_bool {A} (q : A → bool) (l : list A) (x : A) :
  x ∈ List.filter q l ↔ x ∈ l ∧ q x = true.
Proof. rewrite !list_elem_of_In. apply List.filter_In. Qed.

Lemma NoDup_fmap_filter {A B} (f : A → B) (q : A → bool) (l : list A) :
  NoDup (f <$> l) → NoDup (f <$> List.filter q l).
Proof.
  induction l as [|x l IH]; [done|].
  rewrite fmap_cons, list.NoDup_cons. cbn [List.filter]. intros [Hx Hl].
  destruct (q x); [|by apply IH].
  rewrite fmap_cons. apply list.NoDup_cons. split; [|by apply IH].
  intros Hin. apply Hx.
  apply list_elem_of_fmap in Hin as (y & -> & Hy).
  apply elem_of_filter_bool in Hy as [Hy _].
  apply list_elem_of_fmap. by exists y.
Qed.

Lemma save_mapping_keys_nodup (U M R T : Z) (d : DB) :
  NoDup (origin_key <$> messages_mapping d) →
  NoDup (origin_key <$> messages_mapping (save_mapping U M R T d)).
Proof.
  intros Hnodup. unfold save_mapping, set_messages_mapping. cbn [messages_mapping].
  rewrite fmap_app. apply list.NoDup_app. split_and!.
  - by apply NoDup_fmap_filter.
  - intros k Hk Hk'. cbn in Hk'. apply list_elem_of_singleton in Hk' as ->.
    apply list_elem_of_fmap in Hk as (r & Hr & Hin).
    apply elem_of_filter_bool in Hin as [_ Hq].
    apply negb_true_iff in Hq.
    symmetry in Hr. apply origin_key_eqb in Hr. cbn in Hr. congruence.
  - cbn. apply NoDup_singleton.
Qed.

(** The row found for a relayed id right after it was saved, when every
    older row with that id has the same origin. *)
Lemma save_mapping_found (U M R T : Z) (d : DB) :
  (∀ r, r ∈ messages_mapping d → m_support_message_id r = R → origin_key r = (U, M)) →
  List.find (has_support_message R) (messages_mapping (save_mapping U M R T d))
  = Some (mkMapping U M R T).
Proof.
  intros Hfresh. unfold save_mapping, set_messages_mapping. cbn [messages_mapping].
  rewrite find_app_None.
  - cbn. unfold has_support_message. cbn. by rewrite Z.eqb_refl.
  - apply find_filter_None. intros r Hr HR. apply Z.eqb_eq in HR.
    apply negb_false_iff, origin_key_eqb. by apply Hfresh.
Qed.

(** The primary key of [messages_mapping] is kept by [save_mapping]: if no
    two rows share an origin before, none do after; the row of the origin
    being saved is the new one and only that one; rows of other origins are
    kept, so the table grows by at most one row. *)
Theorem save_mapping_primary_key (U M R T : Z) (d : DB) :
  NoDup (origin_key <$> messages_mapping d) →
  let d' := save_mapping U M R T d in
  NoDup (origin_key <$> messages_mapping d')
  ∧ (∀ r, r ∈ messages_mapping d' → origin_key r = (U, M) → r = mkMapping U M R T)
  ∧ mkMapping U M R T ∈ messages_mapping d'
  ∧ (∀ r, origin_key r ≠ (U, M) → r ∈ messages_mapping d' ↔ r ∈ messages_mapping d)
  ∧ (length (messages_mapping d') ≤ S (length (messages_mapping d)))%nat.
Proof.
  intros Hnodup d'. subst d'. unfold save_mapping, set_messages_mapping.
  cbn [messages_mapping]. split_and!.
  - by apply (save_mapping_keys_nodup U M R T).
  - intros r Hin Hkey. apply elem_of_app in Hin as [Hin | Hin].
    + apply elem_of_filter_bool in Hin as [_ Hq]. apply negb_true_iff in Hq.
      apply origin_key_eqb in Hkey. congruence.
    + by apply list_elem_of_singleton in Hin.
  - apply elem_of_app. right. by apply list_elem_of_singleton.
  - intros r Hkey. rewrite elem_of_app, elem_of_filter_bool, list_elem_of_singleton.
    split.
    + intros [[Hin _] | ->]; [done|]. by destruct Hkey.
    + intros Hin. left. split; [done|]. apply negb_true_iff.
      destruct (same_origin U M r) eqn:E; [|done].
      apply origin_key_eqb in E. by destruct Hkey.
  - rewrite length_app. cbn.
    pose proof (List.filter_length_le
                  (λ r, negb (same_origin U M r)) (messages_mapping d)). lia.
Qed.

Lemma save_mapping_primary_key_witness :
  messages_mapping (save_mapping 42 7 901 2
                      (mkDB [mkMapping 42 7 900 1; mkMapping 43 1 899 1] [] 0 ∅ ∅))
  = [mkMapping 43 1 899 1; mkMapping 42 7 901 2]
  ∧ NoDup (origin_key <$> messages_mapping
             (save_mapping 42 7 901 2
                (mkDB [mkMapping 42 7 900 1; mkMapping 43 1 899 1] [] 0 ∅ ∅))).
Proof.
  split; [reflexivity|].
  apply (save_mapping_primary_key 42 7 901 2).
  cbn. apply list.NoDup_cons. split.
  - intros H. apply list_elem_of_singleton in H. discriminate H.
  - apply NoDup_singleton.
Defined.

(** Saving a correlation does not disturb the resolution of a relayed id
    that resolves to another origin: it resolves to the same origin and
    ticket as before (also when the id saved is that very id, since the
    older row is found first). *)
Theorem save_mapping_keeps_other_origins (U M R T R' U' M' T' : Z) (d : DB) :
  find_user_by_support_message R' d = Some (U', M', T') →
  (U', M') ≠ (U, M) →
  find_user_by_support_message R' (save_mapping U M R T d) = Some (U', M', T')
  ∧ get_ticket_by_support_message R' (save_mapping U M R T d) = Some T'.
Proof.
  unfold find_user_by_support_message, get_ticket_by_support_message,
    save_mapping, set_messages_mapping.
  cbn [messages_mapping]. intros Hfind Hne.
  destruct (List.find (has_support_message R') (messages_mapping d)) as [r|] eqn:Hr;
    [|done].
  injection Hfind as <- <- <-.
  rewrite (find_app_Some _ _ _ r); [done|].
  apply find_filter_kept; [done|].
  apply negb_true_iff. destruct (same_origin U M r) eqn:E; [|done].
  apply origin_key_eqb in E. by destruct Hne.
Qed.

Lemma save_mapping_keeps_other_origins_witness :
  find_user_by_support_message 899
    (save_mapping 42 7 899 2
       (mkDB [mkMapping 42 6 900 1; mkMapping 43 1 899 1] [] 0 ∅ ∅))
  = Some (43, 1, 1).
Proof.
  apply (save_mapping_keeps_other_origins 42 7 899 2 899 43 1 1);
    [reflexivity | discriminate].
Defined.

(** The ticket lookup used by the operator commands agrees with the lookup
    used to route replies, and after [save_mapping] with a relayed id that no
    other origin holds it returns the ticket just saved. *)
Theorem get_ticket_by_support_message_roundtrip (U M R T : Z) (d : DB) :
  (∀ r, r ∈ messages_mapping d → m_support_message_id r = R → origin_key r = (U, M)) →
  get_ticket_by_support_message R (save_mapping U M R T d) = Some T
  ∧ ∀ R' d', get_ticket_by_support_message R' d'
             = (λ found, found.2) <$> find_user_by_support_message R' d'.
Proof.
  intros Hfresh. split.
  - unfold get_ticket_by_support_message.
    by rewrite (save_mapping_found U M R T d Hfresh).
  - intros R' d'. unfold get_ticket_by_support_message, find_user_by_support_message.
    by destruct (List.find _ _).
Qed.

Lemma get_ticket_by_support_message_roundtrip_witness :
  get_ticket_by_support_message 900
    (save_mapping 42 7 900 3 (mkDB [mkMapping 42 6 899 1] [] 0 ∅ ∅))
  = Some 3.
Proof.
  apply (get_ticket_by_support_message_roundtrip 42 7 900 3).
  intros r Hr HR. cbn in Hr. apply list_elem_of_singleton in Hr as ->.
  cbn in HR. lia.
Defined.

(** ** Tickets *)

Lemma foldl_newest_max (l : list TicketRow) (acc : option TicketRow) :
  match foldl newest acc l with
  | Some a =>
    (acc = Some a ∨ a ∈ l)
    ∧ (∀ b, acc = Some b → t_id b ≤ t_id a)
    ∧ (∀ r, r ∈ l → t_id r ≤ t_id a)
  | None => acc = None ∧ l = []
  end.
Proof.
  revert acc. induction l as [|r l IH]; intros acc; cbn [foldl].
  - destruct acc as [a|]; [|done]. split_and!; [by left | by intros b [= ->] |].
    intros r Hr. by apply elem_of_nil in Hr.
  - specialize (IH (newest acc r)).
    destruct (foldl newest (newest acc r) l) as [a|].
    + destruct IH as (Hin & Hacc & Hmax).
      assert (Hr : t_id r ≤ t_id a).
      { destruct acc as [b|]; cbn in Hacc.
        - destruct (Z.ltb_spec (t_id b) (t_id r)).
          + by apply Hacc.
          + specialize (Hacc b eq_refl). lia.
        - by apply Hacc. }
      split_and!.
      * destruct Hin as [Hin | Hin]; [|right; by right].
        destruct acc as [b|]; cbn in Hin.
        -- destruct (t_id b <? t_id r); injection Hin as <-;
             [right; by left | by left].
        -- injection Hin as <-. right. by left.
      * intros b ->. cbn in Hacc.
        destruct (Z.ltb_spec (t_id b) (t_id r)).
        -- lia.
        -- by apply Hacc.
      * intros x Hx. apply elem_of_cons in Hx as [-> | Hx]; [done | by apply Hmax].
    + destruct IH as [Hacc _]. unfold newest in Hacc.
      destruct acc as [b|]; [by destruct (t_id b <? t_id r) | done].
Qed.

Lemma is_open_ticket_of_spec (u : Z) (r : TicketRow) :
  is_open_ticket_of u r = true ↔ open_ticket_of u r.
Proof.
  unfold is_open_ticket_of, open_ticket_of.
  by rewrite andb_true_iff, Z.eqb_eq, bool_decide_eq_true.
Qed.

(** [get_open_ticket] returns the id and topic of an open ticket of the
    user, the one with the largest id among them, and returns nothing only
    when the user has no open ticket. *)
Theorem get_open_ticket_newest (u : Z) (d : DB) :
  match get_open_ticket u d with
  | Some (ticket_id, topic_id) =>
    ∃ r, r ∈ tickets d ∧ open_ticket_of u r
         ∧ t_id r = ticket_id ∧ t_topic_id r = topic_id
         ∧ ∀ r', r' ∈ tickets d → open_ticket_of u r' → t_id r' ≤ ticket_id
  | None => ∀ r, r ∈ tickets d → ¬ open_ticket_of u r
  end.
Proof.
  unfold get_open_ticket.
  pose proof (foldl_newest_max (List.filter (is_open_ticket_of u) (tickets d)) None) as H.
  destruct (foldl newest None _) as [a|].
  - destruct H as ([Hin | Hin] & _ & Hmax); [done|].
    apply elem_of_filter_bool in Hin as [Hin Ha].
    exists a. split_and!; [done | by apply is_open_ticket_of_spec | done | done |].
    intros r' Hr' Hopen. apply Hmax, elem_of_filter_bool.
    split; [done | by apply is_open_ticket_of_spec].
  - destruct H as [_ Hnil]. intros r Hr Hopen.
    assert (Hin : r ∈ List.filter (is_open_ticket_of u) (tickets d)).
    { apply elem_of_filter_bool. split; [done | by apply is_open_ticket_of_spec]. }
    rewrite Hnil in Hin. by apply elem_of_nil in Hin.
Qed.

Lemma set_status_of_ids (T : Z) (S : str) (now : Z) (l : list TicketRow) :
  t_id <$> map (set_status_of T S now) l = t_id <$> l.
Proof.
  induction l as [|r l IH]; [done|].
  cbn [map]. rewrite !fmap_cons, IH. by rewrite set_status_of_id.
Qed.

Lemma with_status_immutable (S : str) (now : Z) (r : TicketRow) :
  immutable_columns (with_status S now r) = immutable_columns r.
Proof. reflexivity. Qed.

(** [update_ticket_status] never deletes or reorders tickets and never
    changes a ticket's id, user, names, creation time or topic: only the
    status and [updated_at] can differ afterwards. *)
Theorem update_ticket_status_immutable_columns (now T : Z) (S : str) (d : DB) :
  immutable_columns <$> tickets (update_ticket_status now T S d)
  = immutable_columns <$> tickets d
  ∧ ∀ T' r', get_ticket T' (update_ticket_status now T S d) = Some r' →
      ∃ r, get_ticket T' d = Some r ∧ immutable_columns r' = immutable_columns r
           ∧ (T' ≠ T → r' = r).
Proof.
  split.
  - unfold update_ticket_status, set_tickets. cbn [tickets].
    induction (tickets d) as [|r l IH]; [done|].
    cbn [map]. rewrite !fmap_cons, IH. f_equal.
    unfold set_status_of. by destruct (t_id r =? T).
  - intros T' r'. rewrite get_ticket_update.
    destruct (get_ticket T' d) as [r|] eqn:Hr; [|done].
    cbn. intros [= <-]. exists r. split; [done|].
    unfold set_status_of. destruct (Z.eqb_spec (t_id r) T) as [He | Hne].
    + split; [done|]. intros HT'. exfalso. apply HT'.
      apply List.find_some in Hr as [_ Hr]. apply Z.eqb_eq in Hr. congruence.
    + done.
Qed.

Lemma next_ticket_id_positive (d : DB) : 1 ≤ next_ticket_id d.
Proof.
  unfold next_ticket_id.
  assert (0 ≤ foldr Z.max 0 (map t_id (tickets d))); [|lia].
  induction (tickets d) as [|r l IH]; cbn; lia.
Qed.

Lemma insert_ticket_ids_ok now u un fn top d :
  ids_ok d → ids_ok (insert_ticket now u un fn top d).1.
Proof.
  intros [Hnodup Hrange]. unfold ids_ok. cbn [fst insert_ticket tickets tickets_seq].
  assert (Hlt : ∀ r, r ∈ tickets d → t_id r < next_ticket_id d).
  { intros r Hr. apply t_id_le_max in Hr. unfold next_ticket_id. lia. }
  split.
  - rewrite fmap_app. apply list.NoDup_app. split_and!; [done | | apply NoDup_singleton].
    intros i Hi Hi'. cbn in Hi'. apply list_elem_of_singleton in Hi' as ->.
    apply list_elem_of_fmap in Hi as (r & Hr & Hin). apply Hlt in Hin. lia.
  - apply Forall_app. split.
    + rewrite list.Forall_forall in Hrange |- *. intros r Hr.
      specialize (Hrange r Hr). specialize (Hlt r Hr). lia.
    + constructor; [|constructor]. cbn [t_id].
      pose proof (next_ticket_id_positive d). lia.
Qed.

Lemma update_ticket_status_ids_ok now T S d :
  ids_ok d → ids_ok (update_ticket_status now T S d).
Proof.
  intros [Hnodup Hrange]. unfold ids_ok, update_ticket_status, set_tickets.
  cbn [tickets tickets_seq]. rewrite set_status_of_ids. split; [done|].
  rewrite list.Forall_forall in Hrange |- *. intros r Hr.
  apply list_elem_of_fmap in Hr as (x & -> & Hx).
  rewrite set_status_of_id. by apply Hrange.
Qed.

Lemma get_open_ticket_elem (u T : Z) (top : option Z) (d : DB) :
  get_open_ticket u d = Some (T, top) →
  ∃ r, r ∈ tickets d ∧ t_id r = T ∧ t_topic_id r = top ∧ open_ticket_of u r.
Proof.
  unfold get_open_ticket. intros H.
  destruct (foldl newest None _) as [a|] eqn:Ha; [|done].
  injection H as <- <-. apply newest_elem in Ha as [Ha | Ha]; [done|].
  apply elem_of_filter_bool in Ha as [Hin Hopen].
  exists a. split_and!; [done.. |]. by apply is_open_ticket_of_spec.
Qed.

Lemma get_ticket_is_Some (T : Z) (d : DB) :
  is_Some (get_ticket T d) ↔ ∃ r, r ∈ tickets d ∧ t_id r = T.
Proof.
  unfold get_ticket. split.
  - intros [r Hr]. apply List.find_some in Hr as [Hin Hid].
    exists r. split; [by apply list_elem_of_In | by apply Z.eqb_eq].
  - intros (r & Hin & Hid).
    destruct (List.find _ _) as [x|] eqn:Hx; [by eexists|].
    apply List.find_none with (x := r) in Hx; [|by apply list_elem_of_In].
    cbn in Hx. apply Z.eqb_neq in Hx. done.
Qed.

(** ** What the inbound handler writes *)

Section InboundFacts.

Variable SUPPORT_CHAT_ID : Z.
Variable SUPPORT_TOPIC_ID : option Z.
Variable transport : list call → call → option Z.

(** The database after [forward_to_support]: at most one ticket inserted
    (only for a sender who is not blocked and has no open ticket), then at
    most one correlation saved, for this message and under the open ticket
    of the sender. *)
Lemma forward_to_support_db now message w :
  let user_chat_id := chat_id message in
  let user := from_user message in
  ∃ d1,
    (d1 = db w
     ∨ ∃ topic_id,
         is_user_blocked user_chat_id (db w) = false
         ∧ get_open_ticket user_chat_id (db w) = None
         ∧ d1 = (insert_ticket now user_chat_id (u_username user)
                   (Some (u_first_name user)) topic_id (db w)).1)
    ∧ (db (forward_to_support SUPPORT_CHAT_ID SUPPORT_TOPIC_ID transport
             now message w).2 = d1
       ∨ ∃ support_message_id ticket_id topic_id,
           get_open_ticket user_chat_id d1 = Some (ticket_id, topic_id)
           ∧ db (forward_to_support SUPPORT_CHAT_ID SUPPORT_TOPIC_ID transport
                   now message w).2
             = save_mapping user_chat_id (message_id message)
                            support_message_id ticket_id d1).
Proof.
  intros user_chat_id user.
  destruct (forward_to_support_cases SUPPORT_CHAT_ID SUPPORT_TOPIC_ID transport
              now message w)
    as [[_ Hrun] | [(_ & ticket_id & topic_id & Hopen & Hrun)
                   | (Hb & Hopen & topic_id & calls & _ & Hrun)]].
  - exists (db w). rewrite Hrun. split; by left.
  - exists (db w). split; [by left|]. rewrite Hrun, run_relay. cbn [snd].
    destruct (relay_call _ _ _) as [c|]; [|by left]. cbn [db].
    destruct (transport (trace w) c) as [sid|]; [|by left].
    right. by exists sid, ticket_id, topic_id.
  - eexists. split; [right; by exists topic_id|].
    cbv zeta in Hrun. destruct Hrun as [-> | ->]; [by left|].
    rewrite run_relay. cbn [snd].
    destruct (relay_call _ _ _) as [c|]; [|by left]. cbn [db trace].
    destruct (transport _ c) as [sid|]; [|by left].
    right. exists sid, (next_ticket_id (db w)), topic_id.
    split; [|done]. apply get_open_ticket_insert.
Qed.

(** [forward_to_support] never writes to the block list or the settings,
    never changes or removes an existing ticket (it appends at most one, and
    none when the sender has an open ticket), and the only correlation row
    it can add or replace is the one of the incoming message. *)
Theorem forward_to_support_writes now message w :
  let w' := (forward_to_support SUPPORT_CHAT_ID SUPPORT_TOPIC_ID transport
               now message w).2 in
  blocked_users (db w') = blocked_users (db w)
  ∧ bot_settings (db w') = bot_settings (db w)
  ∧ (∃ new, tickets (db w') = tickets (db w) ++ new ∧ (length new ≤ 1)%nat)
  ∧ (is_Some (get_open_ticket (chat_id message) (db w)) →
     tickets (db w') = tickets (db w))
  ∧ (∀ r, r ∈ messages_mapping (db w') →
       r ∈ messages_mapping (db w)
       ∨ origin_key r = (chat_id message, message_id message))
  ∧ (∀ r, r ∈ messages_mapping (db w) →
       origin_key r ≠ (chat_id message, message_id message) →
       r ∈ messages_mapping (db w')).
Proof.
  intros w'. subst w'.
  destruct (forward_to_support_db now message w) as (d1 & Hd1 & Hd').
  assert (H1 : blocked_users d1 = blocked_users (db w)
               ∧ bot_settings d1 = bot_settings (db w)
               ∧ messages_mapping d1 = messages_mapping (db w)
               ∧ (∃ new, tickets d1 = tickets (db w) ++ new ∧ (length new ≤ 1)%nat)
               ∧ (is_Some (get_open_ticket (chat_id message) (db w)) →
                  tickets d1 = tickets (db w))).
  { destruct Hd1 as [-> | (topic_id & _ & Hopen & ->)].
    - split_and!; try done. exists []. rewrite app_nil_r. split; [done | cbn; lia].
    - split_and!; try done.
      + eexists [_]. split; [reflexivity | cbn; lia].
      + rewrite Hopen. by intros [x Hx]. }
  destruct H1 as (Hb & Hs & Hm & Ht & Ho).
  destruct Hd' as [-> | (sid & ticket_id & topic_id & _ & ->)].
  - split_and!; try done.
    + intros r Hr. left. by rewrite <- Hm.
    + intros r Hr _. by rewrite Hm.
  - split_and!; try done.
    + intros r Hr. unfold save_mapping, set_messages_mapping in Hr.
      cbn [messages_mapping] in Hr. apply elem_of_app in Hr as [Hr | Hr].
      * apply elem_of_filter_bool in Hr as [Hr _]. left. by rewrite <- Hm.
      * apply list_elem_of_singleton in Hr as ->. by right.
    + intros r Hr Hkey. unfold save_mapping, set_messages_mapping.
      cbn [messages_mapping]. apply elem_of_app. left.
      apply elem_of_filter_bool. split; [by rewrite Hm|].
      apply negb_true_iff. destruct (same_origin _ _ r) eqn:E; [|done].
      apply origin_key_eqb in E. by destruct Hkey.
Qed.

End InboundFacts.

(** ** Well-formed stores *)

Lemma store_ok_empty : store_ok empty_db.
Proof.
  unfold store_ok, ids_ok. cbn. split_and!; try constructor.
Qed.

Lemma insert_ticket_store_ok now u un fn top d :
  store_ok d → store_ok (insert_ticket now u un fn top d).1.
Proof.
  intros (Hids & Hkeys & Hrefs & Hst). split_and!.
  - by apply insert_ticket_ids_ok.
  - done.
  - cbn [fst insert_ticket messages_mapping].
    rewrite list.Forall_forall in Hrefs |- *. intros m Hm.
    apply get_ticket_is_Some. apply Hrefs, get_ticket_is_Some in Hm as (r & Hr & Hid).
    exists r. split; [|done]. cbn. apply elem_of_app. by left.
  - cbn [fst insert_ticket tickets]. apply Forall_app. split; [done|].
    constructor; [by left | constructor].
Qed.

Lemma save_mapping_store_ok U M R T d :
  store_ok d → is_Some (get_ticket T d) → store_ok (save_mapping U M R T d).
Proof.
  intros (Hids & Hkeys & Hrefs & Hst) HT. split_and!.
  - done.
  - by apply save_mapping_keys_nodup.
  - unfold save_mapping, set_messages_mapping. cbn [messages_mapping].
    apply Forall_app. split.
    + rewrite list.Forall_forall in Hrefs |- *. intros m Hm.
      apply elem_of_filter_bool in Hm as [Hm _]. by apply Hrefs.
    + constructor; [done | constructor].
  - done.
Qed.

Lemma update_ticket_status_store_ok now T S d :
  S = lit "open" ∨ S = lit "closed" →
  store_ok d → store_ok (update_ticket_status now T S d).
Proof.
  intros HS (Hids & Hkeys & Hrefs & Hst). split_and!.
  - by apply update_ticket_status_ids_ok.
  - done.
  - cbn [update_ticket_status set_tickets messages_mapping].
    rewrite list.Forall_forall in Hrefs |- *. intros m Hm.
    rewrite get_ticket_update. destruct (Hrefs m Hm) as [r ->]. by eexists.
  - unfold update_ticket_status, set_tickets. cbn [tickets].
    rewrite list.Forall_forall in Hst |- *. intros r Hr.
    apply list_elem_of_fmap in Hr as (x & -> & Hx).
    unfold set_status_of. destruct (t_id x =? T); [exact HS | by apply Hst].
Qed.

Lemma toggle_user_block_store_ok now u a d :
  store_ok d → store_ok (toggle_user_block now u a d).1.
Proof.
  unfold toggle_user_block. by destruct (is_user_blocked u d).
Qed.

Section StoreFacts.

Variable SUPPORT_CHAT_ID : Z.
Variable SUPPORT_TOPIC_ID : option Z.
Variable transport : list call → call → option Z.

(** [forward_to_support] keeps the store well formed: ticket ids stay
    distinct and within the counter, no two correlation rows share an
    origin, every correlation row (the new one included) points to an
    existing ticket, and every ticket is open or closed.  The empty store is
    well formed. *)
Theorem forward_to_support_store_ok now message w :
  store_ok (db w) →
  store_ok (db (forward_to_support SUPPORT_CHAT_ID SUPPORT_TOPIC_ID transport
                  now message w).2)
  ∧ store_ok empty_db.
Proof.
  intros Hok. split; [|exact store_ok_empty].
  destruct (forward_to_support_db SUPPORT_CHAT_ID SUPPORT_TOPIC_ID transport
              now message w) as (d1 & Hd1 & Hd').
  assert (Hok1 : store_ok d1).
  { destruct Hd1 as [-> | (topic_id & _ & _ & ->)]; [done|].
    by apply insert_ticket_store_ok. }
  destruct Hd' as [-> | (sid & ticket_id & topic_id & Hopen & ->)]; [done|].
  apply save_mapping_store_ok; [done|].
  apply get_open_ticket_elem in Hopen as (r & Hr & Hid & _).
  apply get_ticket_is_Some. by exists r.
Qed.

(** In every state reached from the empty database both primary keys hold:
    ticket ids are distinct, positive and not above the AUTOINCREMENT
    counter (so the next ticket gets an id no ticket has had), and no two
    correlation rows have the same origin message. *)
Theorem reachable_primary_keys clock w :
  reachable SUPPORT_CHAT_ID SUPPORT_TOPIC_ID transport clock w →
  ids_ok (db w)
  ∧ NoDup (origin_key <$> messages_mapping (db w))
  ∧ ∀ r, r ∈ tickets (db w) → t_id r < next_ticket_id (db w).
Proof.
  intros Hreach.
  assert (H : ids_ok (db w) ∧ NoDup (origin_key <$> messages_mapping (db w))).
  { induction Hreach as [t0 | t w now u un fn _ IH Ht | t w now message _ IH Ht
                        | t w message _ IH | t w now T S _ IH Ht
                        | t w now u a _ IH Ht | t w u m s i _ IH | t w k v _ IH].
    - split; [split|]; cbn; constructor.
    - destruct IH as [Hids Hkeys].
      destruct (create_ticket_run SUPPORT_CHAT_ID transport now u un fn w)
        as (top & calls & ->).
      split; [by apply insert_ticket_ids_ok | done].
    - destruct IH as [Hids Hkeys].
      destruct (forward_to_support_db SUPPORT_CHAT_ID SUPPORT_TOPIC_ID transport
                  now message w) as (d1 & Hd1 & Hd').
      assert (H1 : ids_ok d1 ∧ NoDup (origin_key <$> messages_mapping d1)).
      { destruct Hd1 as [-> | (topic_id & _ & _ & ->)]; [done|].
        split; [by apply insert_ticket_ids_ok | done]. }
      destruct H1 as [Hids1 Hkeys1].
      destruct Hd' as [-> | (sid & ticket_id & topic_id & _ & ->)]; [done|].
      split; [done | by apply save_mapping_keys_nodup].
    - by rewrite reply_from_support_db.
    - destruct IH as [Hids Hkeys]. split; [by apply update_ticket_status_ids_ok | done].
    - cbn [db]. unfold toggle_user_block. by destruct (is_user_blocked u (db w)).
    - destruct IH as [Hids Hkeys]. split; [done | by apply save_mapping_keys_nodup].
    - done. }
  destruct H as [Hids Hkeys]. split_and!; [done.. |].
  intros r Hr. apply t_id_le_max in Hr. unfold next_ticket_id. lia.
Qed.

End StoreFacts.

Lemma forward_to_support_store_ok_witness :
  store_ok (db (forward_to_support (-1001) None answering 1000 text_message
                  start_world).2).
Proof.
  exact (proj1 (forward_to_support_store_ok (-1001) None answering 1000
                  text_message start_world store_ok_empty)).
Defined.

Lemma reachable_primary_keys_witness :
  let w := (forward_to_support (-1001) None answering 1000 text_message start_world).2 in
  NoDup (t_id <$> tickets (db w)) ∧ next_ticket_id (db w) = 2.
Proof.
  intros w.
  assert (Hreach : reachable (-1001) None answering 1000 w).
  { apply reach_forward_to_support with 0; [apply reach_start | lia]. }
  split; [|reflexivity].
  exact (proj1 (proj1 (reachable_primary_keys (-1001) None answering 1000 w Hreach))).
Defined.

(** ** Relaying and recording *)

Section RelayFacts.

Variable SUPPORT_CHAT_ID : Z.
Variable SUPPORT_TOPIC_ID : option Z.
Variable transport : list call → call → option Z.

Lemma relay_call_relays message header topic_mode topic_id user_chat_id c :
  relay_call message header
    (send_kwargs_for SUPPORT_CHAT_ID SUPPORT_TOPIC_ID topic_mode topic_id user_chat_id)
  = Some c →
  is_relay c = true.
Proof.
  intros H. apply relay_call_is_relay in H. unfold is_relay. rewrite H.
  apply bool_decide_eq_true. by eexists.
Qed.

(** The calls of one run of [forward_to_support], with the database that
    results: some calls that are not relays (topic, profile card,
    acknowledgement), then at most one relay call, whose answer decides
    whether a correlation is saved. *)
Lemma forward_to_support_shape now message w :
  let w' := (forward_to_support SUPPORT_CHAT_ID SUPPORT_TOPIC_ID transport
               now message w).2 in
  ∃ pre d1,
    messages_mapping d1 = messages_mapping (db w)
    ∧ Forall (λ c, is_relay c = false) pre
    ∧ ((trace w' = trace w ++ pre ∧ db w' = d1)
       ∨ ∃ c ticket_id topic_id,
           is_relay c = true
           ∧ trace w' = trace w ++ pre ++ [c]
           ∧ get_open_ticket (chat_id message) d1 = Some (ticket_id, topic_id)
           ∧ db w' = match transport (trace w ++ pre) c with
                     | Some support_message_id =>
                       save_mapping (chat_id message) (message_id message)
                                    support_message_id ticket_id d1
                     | None => d1
                     end).
Proof.
  intros w'. subst w'.
  destruct (forward_to_support_cases SUPPORT_CHAT_ID SUPPORT_TOPIC_ID transport
              now message w)
    as [[_ Hrun] | [(_ & ticket_id & topic_id & Hopen & Hrun)
                   | (_ & _ & topic_id & calls & Hcalls & Hrun)]].
  - exists [], (db w). rewrite Hrun. split_and!; [done | constructor |].
    left. by rewrite app_nil_r.
  - exists [], (db w). rewrite Hrun, run_relay. cbn [snd].
    split_and!; [done | constructor |].
    destruct (relay_call _ _ _) as [c|] eqn:Hc.
    + right. exists c, ticket_id, topic_id. rewrite app_nil_r. cbn [db trace].
      split_and!; [by eapply relay_call_relays | done | done | done].
    + left. by rewrite app_nil_r.
  - cbv zeta in Hrun. eexists calls, _. split_and!; [| exact Hcalls |].
    2:{ destruct Hrun as [-> | ->].
        - left. cbn [snd db trace]. split; reflexivity.
        - rewrite run_relay. cbn [snd].
          destruct (relay_call _ _ _) as [c|] eqn:Hc.
          + right. exists c, (next_ticket_id (db w)), topic_id. cbn [db trace].
            split_and!; [by eapply relay_call_relays | by rewrite app_assoc
                        | apply get_open_ticket_insert | done].
          + left. cbn [db trace]. split; reflexivity. }
    reflexivity.
Qed.

(** A correlation is recorded exactly when the relay call returns: the row
    links this message to the sender's open ticket under the id the
    transport returned, and (when no row of another origin already holds
    that id) the relayed id resolves back to the message and the ticket.
    When the relay call raises, the handler still returns and records
    nothing. *)
Theorem forward_to_support_records_relay now message w pre c :
  let run := forward_to_support SUPPORT_CHAT_ID SUPPORT_TOPIC_ID transport
               now message w in
  trace run.2 = trace w ++ pre ++ [c] →
  is_relay c = true →
  run.1 = Returned ()
  ∧ match transport (trace w ++ pre) c with
    | Some support_message_id =>
      ∃ ticket_id topic_id,
        get_open_ticket (chat_id message) (db run.2) = Some (ticket_id, topic_id)
        ∧ mkMapping (chat_id message) (message_id message) support_message_id ticket_id
          ∈ messages_mapping (db run.2)
        ∧ ((∀ r, r ∈ messages_mapping (db w) →
                 m_support_message_id r = support_message_id →
                 origin_key r = (chat_id message, message_id message)) →
           find_user_by_support_message support_message_id (db run.2)
           = Some (chat_id message, message_id message, ticket_id)
           ∧ get_ticket_by_support_message support_message_id (db run.2)
             = Some ticket_id)
    | None => messages_mapping (db run.2) = messages_mapping (db w)
    end.
Proof.
  intros run Htrace Hrel. subst run.
  assert (Hret : (forward_to_support SUPPORT_CHAT_ID SUPPORT_TOPIC_ID transport
                    now message w).1 = Returned ()).
  { destruct (forward_to_support_cases SUPPORT_CHAT_ID SUPPORT_TOPIC_ID transport
                now message w)
      as [[_ Hrun] | [(_ & ticket_id & topic_id & _ & Hrun)
                     | (_ & _ & topic_id & calls & Hcalls & Hrun)]].
    - by rewrite Hrun.
    - by rewrite Hrun, run_relay.
    - cbv zeta in Hrun. destruct Hrun as [Hrun | Hrun].
      + exfalso. rewrite Hrun in Htrace. cbn [snd trace] in Htrace.
        apply app_inv_head in Htrace. subst calls.
        apply Forall_app in Hcalls as [_ Hc].
        apply list.Forall_forall with (x := c) in Hc; [congruence|].
        by apply list_elem_of_singleton.
      + by rewrite Hrun, run_relay. }
  split; [exact Hret|].
  destruct (forward_to_support_shape now message w)
    as (pre' & d1 & Hm & Hpre & [[Ht Hd] | (c' & ticket_id & topic_id & _ & Ht & Hopen & Hd)]).
  - exfalso. rewrite Ht in Htrace. apply app_inv_head in Htrace. subst pre'.
    apply Forall_app in Hpre as [_ Hc].
    apply list.Forall_forall with (x := c) in Hc; [congruence|].
    by apply list_elem_of_singleton.
  - rewrite Ht in Htrace. apply app_inv_head in Htrace.
    apply app_inj_tail in Htrace as [-> ->]. rewrite Hd.
    destruct (transport (trace w ++ pre) c) as [sid|]; [|done].
    exists ticket_id, topic_id. split_and!.
    + by rewrite get_open_ticket_save_mapping.
    + unfold save_mapping, set_messages_mapping. cbn [messages_mapping].
      apply elem_of_app. right. by apply list_elem_of_singleton.
    + intros Hfresh.
      assert (Hfound := save_mapping_found (chat_id message) (message_id message)
                          sid ticket_id d1).
      rewrite Hm in Hfound. specialize (Hfound Hfresh).
      unfold find_user_by_support_message, get_ticket_by_support_message.
      by rewrite Hfound.
Qed.

End RelayFacts.

Lemma forward_to_support_records_relay_witness :
  let run := forward_to_support (-1001) None answering 1000 text_message start_world in
  find_user_by_support_message 103 (db run.2) = Some (42, 7, 1).
Proof.
  intros run.
  pose proof (forward_to_support_records_relay (-1001) None answering 1000
                text_message start_world
                (removelast (trace run.2))
                (List.last (trace run.2) (reply_text 0 []))
                eq_refl eq_refl) as [_ H].
  destruct H as (ticket_id & topic_id & Hopen & _ & Hfind).
  assert (Hid : ticket_id = 1).
  { vm_compute in Hopen. by injection Hopen as <- _. }
  subst ticket_id. apply Hfind. intros r Hr. by apply elem_of_nil in Hr.
Defined.

(** ** Opening and reusing tickets *)

Section TicketFlow.

Variable SUPPORT_CHAT_ID : Z.
Variable SUPPORT_TOPIC_ID : option Z.
Variable transport : list call → call → option Z.

(** The run of [forward_to_support] for a sender without open ticket: the
    ticket is created, the acknowledgement is sent, and only if that call
    returns is the message relayed. *)
Lemma forward_to_support_new_ticket now message w :
  is_user_blocked (chat_id message) (db w) = false →
  get_open_ticket (chat_id message) (db w) = None →
  ∃ topic_id calls,
    Forall (λ c, is_relay c = false) calls
    ∧ let user := from_user message in
      let ticket_id := next_ticket_id (db w) in
      let ack := acknowledgement (chat_id message) ticket_id in
      let w1 :=
        mkWorld (insert_ticket now (chat_id message) (u_username user)
                               (Some (u_first_name user)) topic_id (db w)).1
                (trace w ++ calls ++ [ack]) in
      forward_to_support SUPPORT_CHAT_ID SUPPORT_TOPIC_ID transport now message w
      = match transport (trace w ++ calls) ack with
        | None => (Raised, w1)
        | Some _ =>
          relay transport message
            (header_of (get_topic_mode (db w)) true ticket_id user)
            (send_kwargs_for SUPPORT_CHAT_ID SUPPORT_TOPIC_ID (get_topic_mode (db w))
                             topic_id (chat_id message))
            ticket_id w1
        end.
Proof.
  intros Hb Hopen.
  destruct (create_ticket_calls SUPPORT_CHAT_ID transport now (chat_id message)
              (u_username (from_user message))
              (Some (u_first_name (from_user message))) w)
    as (topic_id & calls & Hrun & Hcalls).
  exists topic_id, calls. split; [done|]. cbv zeta.
  unfold forward_to_support. rewrite run_bind, run_query, Hb.
  rewrite run_bind, run_query, Hopen.
  rewrite !run_bind, Hrun. cbn [fst snd]. rewrite run_bind.
  unfold acknowledgement. rewrite run_bot. cbn [db trace].
  destruct (transport (trace w ++ calls) _).
  - cbv beta iota. rewrite run_ret. cbv beta iota.
    rewrite run_bind, run_query, (app_assoc (trace w) calls). reflexivity.
  - by rewrite (app_assoc (trace w) calls).
Qed.

(** The run for a sender who has an open ticket is the relay alone. *)
Lemma forward_to_support_open_ticket now message w ticket_id topic_id :
  is_user_blocked (chat_id message) (db w) = false →
  get_open_ticket (chat_id message) (db w) = Some (ticket_id, topic_id) →
  forward_to_support SUPPORT_CHAT_ID SUPPORT_TOPIC_ID transport now message w
  = relay transport message
      (header_of (get_topic_mode (db w)) false ticket_id (from_user message))
      (send_kwargs_for SUPPORT_CHAT_ID SUPPORT_TOPIC_ID (get_topic_mode (db w))
                       topic_id (chat_id message))
      ticket_id w.
Proof.
  intros Hb Hopen. unfold forward_to_support.
  rewrite run_bind, run_query, Hb. rewrite run_bind, run_query, Hopen.
  rewrite run_bind, run_ret. cbv beta iota. by rewrite run_bind, run_query.
Qed.

(** The first message of a user who is not blocked and has no open ticket
    opens exactly one ticket, for that user, and the user is told its number
    in their own chat.  A user who has an open ticket gets no
    acknowledgement and no new topic: the only call made, if any, is the
    relay. *)
Theorem forward_to_support_acknowledges now message w :
  is_user_blocked (chat_id message) (db w) = false →
  let w' := (forward_to_support SUPPORT_CHAT_ID SUPPORT_TOPIC_ID transport
               now message w).2 in
  match get_open_ticket (chat_id message) (db w) with
  | None =>
    ∃ r added,
      tickets (db w') = tickets (db w) ++ [r]
      ∧ open_ticket_of (chat_id message) r
      ∧ get_open_ticket (chat_id message) (db w') = Some (t_id r, t_topic_id r)
      ∧ trace w' = trace w ++ added
      ∧ acknowledgement (chat_id message) (t_id r) ∈ added
  | Some _ =>
    tickets (db w') = tickets (db w)
    ∧ ∃ added, trace w' = trace w ++ added
               ∧ (length added ≤ 1)%nat
               ∧ Forall (λ c, is_relay c = true) added
  end.
Proof.
  intros Hb w'. subst w'.
  destruct (get_open_ticket (chat_id message) (db w)) as [[ticket_id topic_id]|] eqn:Hopen.
  - rewrite (forward_to_support_open_ticket now message w ticket_id topic_id Hb Hopen).
    rewrite run_relay. cbn [snd].
    destruct (relay_call _ _ _) as [c|] eqn:Hc.
    + cbn [db trace]. split; [by destruct (transport (trace w) c)|].
      exists [c]. split_and!; [done | cbn; lia |].
      constructor; [|constructor].
      apply relay_call_is_relay in Hc. unfold is_relay. rewrite Hc.
      apply bool_decide_eq_true. by eexists.
    + split; [done|]. exists []. rewrite app_nil_r.
      split_and!; [done | cbn; lia | constructor].
  - destruct (forward_to_support_new_ticket now message w Hb Hopen)
      as (topic_id & calls & _ & Hrun).
    cbv zeta in Hrun. rewrite Hrun. clear Hrun.
    eexists (mkTicket (next_ticket_id (db w)) (chat_id message) _ _ (lit "open")
                      now now topic_id).
    assert (Hack : acknowledgement (chat_id message) (next_ticket_id (db w))
                   ∈ calls ++ [acknowledgement (chat_id message) (next_ticket_id (db w))]).
    { apply elem_of_app. right. by apply list_elem_of_singleton. }
    destruct (transport (trace w ++ calls) _).
    + rewrite run_relay. cbn [snd].
      destruct (relay_call _ _ _) as [c|].
      * exists ((calls ++ [acknowledgement (chat_id message) (next_ticket_id (db w))])
                ++ [c]).
        cbn [db trace t_id t_topic_id]. split_and!.
        -- by destruct (transport _ c).
        -- done.
        -- destruct (transport _ c);
             [rewrite get_open_ticket_save_mapping|]; apply get_open_ticket_insert.
        -- by rewrite <- !app_assoc.
        -- apply elem_of_app. by left.
      * exists (calls ++ [acknowledgement (chat_id message) (next_ticket_id (db w))]).
        cbn [db trace t_id t_topic_id]. split_and!; try done.
        apply get_open_ticket_insert.
    + exists (calls ++ [acknowledgement (chat_id message) (next_ticket_id (db w))]).
      cbn [snd db trace t_id t_topic_id]. split_and!; try done.
      apply get_open_ticket_insert.
Qed.


Lemma relay_keeps_block_list message header kw ticket_id w u :
  is_user_blocked u (db (relay transport message header kw ticket_id w).2)
  = is_user_blocked u (db w).
Proof.
  rewrite run_relay. cbn [snd]. destruct (relay_call _ _ _) as [c|]; [|done].
  cbn [db]. by destruct (transport (trace w) c).
Qed.

(** Two messages in a row from a user who is not blocked: whatever the
    transport does, after the first the user has an open ticket, and the
    second is handled under that same ticket without creating another. *)
Theorem forward_to_support_twice now1 now2 message1 message2 w :
  is_user_blocked (chat_id message1) (db w) = false →
  chat_id message2 = chat_id message1 →
  let w1 := (forward_to_support SUPPORT_CHAT_ID SUPPORT_TOPIC_ID transport
               now1 message1 w).2 in
  let w2 := (forward_to_support SUPPORT_CHAT_ID SUPPORT_TOPIC_ID transport
               now2 message2 w1).2 in
  is_Some (get_open_ticket (chat_id message1) (db w1))
  ∧ tickets (db w2) = tickets (db w1)
  ∧ get_open_ticket (chat_id message1) (db w2)
    = get_open_ticket (chat_id message1) (db w1)
  ∧ (length (tickets (db w2)) ≤ S (length (tickets (db w))))%nat.
Proof.
  intros Hb Hchat w1 w2.
  assert (H1 : is_user_blocked (chat_id message1) (db w1) = false
               ∧ is_Some (get_open_ticket (chat_id message1) (db w1))
               ∧ (length (tickets (db w1)) ≤ S (length (tickets (db w))))%nat).
  { subst w1.
    destruct (get_open_ticket (chat_id message1) (db w))
      as [[ticket_id topic_id]|] eqn:Hopen.
    - rewrite (forward_to_support_open_ticket now1 message1 w ticket_id topic_id Hb Hopen).
      rewrite relay_keeps_block_list.
      match goal with |- context [relay _ _ ?h ?k ?i ?w0] =>
        destruct (relay_effect transport message1 h k i w0) as (-> & -> & _) end.
      rewrite Hopen. split_and!; [done | by eexists | lia].
    - destruct (forward_to_support_new_ticket now1 message1 w Hb Hopen)
        as (topic_id & calls & _ & Hrun).
      cbv zeta in Hrun. rewrite Hrun. clear Hrun.
      destruct (transport (trace w ++ calls) _).
      + rewrite relay_keeps_block_list.
        match goal with |- context [relay _ _ ?h ?k ?i ?w0] =>
          destruct (relay_effect transport message1 h k i w0) as (-> & -> & _) end.
        cbn [db]. rewrite get_open_ticket_insert.
        split_and!; [done | by eexists |].
        cbn [insert_ticket fst tickets]. rewrite length_app. cbn. lia.
      + cbn [snd db]. rewrite get_open_ticket_insert.
        split_and!; [done | by eexists |].
        cbn [insert_ticket fst tickets]. rewrite length_app. cbn. lia. }
  destruct H1 as (Hb1 & [[ticket_id topic_id] Hopen1] & Hlen).
  assert (H2 : tickets (db w2) = tickets (db w1)
               ∧ get_open_ticket (chat_id message1) (db w2)
                 = get_open_ticket (chat_id message1) (db w1)).
  { subst w2. rewrite <- Hchat in Hb1, Hopen1.
    rewrite (forward_to_support_open_ticket now2 message2 w1 ticket_id topic_id
               Hb1 Hopen1).
    match goal with |- context [relay _ _ ?h ?k ?i ?w0] =>
      destruct (relay_effect transport message2 h k i w0) as (-> & -> & _) end.
    done. }
  destruct H2 as [Ht Ho]. split_and!; [by eexists | done | done |].
  rewrite Ht. exact Hlen.
Qed.

End TicketFlow.

Lemma forward_to_support_acknowledges_witness :
  acknowledgement 42 1
  ∈ trace (forward_to_support (-1001) None answering 1000 text_message start_world).2.
Proof.
  pose proof (forward_to_support_acknowledges (-1001) None answering 1000
                text_message start_world eq_refl) as H.
  cbv zeta in H.
  assert (Hnone : get_open_ticket (chat_id text_message) (db start_world) = None)
    by reflexivity.
  rewrite Hnone in H. destruct H as (r & added & Ht & _ & _ & Htrace & Hack).
  assert (Hid : t_id r = 1).
  { apply (f_equal (λ l, t_id <$> l)) in Ht. vm_compute in Ht.
    injection Ht as Ht. symmetry. exact Ht. }
  rewrite Hid in Hack. rewrite Htrace. exact Hack.
Defined.


Lemma forward_to_support_twice_witness :
  let w1 := (forward_to_support (-1001) None answering 1000 text_message start_world).2 in
  tickets (db (forward_to_support (-1001) None answering 1001 voice_message w1).2)
  = tickets (db w1).
Proof.
  intros w1.
  exact (proj1 (proj2 (forward_to_support_twice (-1001) None answering 1000 1001
                         text_message voice_message start_world eq_refl eq_refl))).
Defined.

(** ** Creating the topic of a ticket *)

Lemma display_name_of_nonempty (username first_name : option str) (user_chat_id : Z) :
  display_name_of username first_name user_chat_id ≠ [].
Proof.
  unfold display_name_of, str_or.
  destruct username as [[|c r]|]; try done;
    destruct first_name as [[|c' r']|]; try done;
    intros H; apply (f_equal length) in H; rewrite length_app in H;
    vm_compute (length (lit "User")) in H; cbn in H; lia.
Qed.

Section TopicFacts.

Variable SUPPORT_CHAT_ID : Z.
Variable transport : list call → call → option Z.

(** In [per_user] mode, when the topic is created, its thread id is stored
    with the ticket and returned, and the profile card of the user is posted
    into that thread right after; whether the card can be posted or not, the
    ticket is created and [create_ticket] returns.  The topic name has
    between 3 and 128 characters. *)
Theorem create_ticket_topic_created now user_chat_id username first_name w thread :
  let topic_name := lit "🟢 " ++ display_name_of username first_name user_chat_id in
  let request := create_forum_topic SUPPORT_CHAT_ID (take 128 topic_name) in
  let card :=
    send_message (user_info user_chat_id username first_name (next_ticket_id (db w)))
                 (Some (lit "HTML")) (mkKwargs SUPPORT_CHAT_ID (Some thread) None) in
  get_topic_mode (db w) = lit "per_user" →
  transport (trace w) request = Some thread →
  thread ≠ 0 →
  create_ticket SUPPORT_CHAT_ID transport now user_chat_id username first_name w
  = (Returned (next_ticket_id (db w), Some thread),
     mkWorld (insert_ticket now user_chat_id username first_name (Some thread) (db w)).1
             (trace w ++ [request; card]))
  ∧ get_open_ticket user_chat_id
      (db (create_ticket SUPPORT_CHAT_ID transport now user_chat_id
             username first_name w).2)
    = Some (next_ticket_id (db w), Some thread)
  ∧ (3 ≤ length (take 128 topic_name) ≤ 128)%nat.
Proof.
  intros topic_name request card Hmode Hreq Hthread.
  assert (Hrun : create_ticket SUPPORT_CHAT_ID transport now user_chat_id
                   username first_name w
                 = (Returned (next_ticket_id (db w), Some thread),
                    mkWorld (insert_ticket now user_chat_id username first_name
                               (Some thread) (db w)).1
                            (trace w ++ [request; card]))).
  { unfold create_ticket. rewrite run_bind, run_query, Hmode.
    rewrite bool_decide_eq_true_2 by done.
    rewrite run_bind, run_try_bot. fold topic_name request. rewrite Hreq.
    rewrite run_bind. cbn [execute_returning fst snd db trace andb truthy_int].
    destruct (Z.eqb_spec thread 0) as [|_]; [done|]. cbn [negb].
    rewrite run_bind, run_try_bot. cbn [db trace]. rewrite run_ret.
    by rewrite <- app_assoc. }
  split; [exact Hrun|]. split.
  - rewrite Hrun. cbn [snd db]. apply get_open_ticket_insert.
  - rewrite length_take.
    assert (3 ≤ length topic_name)%nat; [|lia].
    subst topic_name. rewrite length_app.
    pose proof (display_name_of_nonempty username first_name user_chat_id) as Hne.
    destruct (display_name_of username first_name user_chat_id); [done|].
    vm_compute (length (lit "🟢 ")). cbn. lia.
Qed.

(** Outside [per_user] mode [create_ticket] does not call the transport at
    all: the ticket is inserted without topic. *)
Theorem create_ticket_without_topic now user_chat_id username first_name w :
  get_topic_mode (db w) ≠ lit "per_user" →
  create_ticket SUPPORT_CHAT_ID transport now user_chat_id username first_name w
  = (Returned (next_ticket_id (db w), None),
     mkWorld (insert_ticket now user_chat_id username first_name None (db w)).1
             (trace w))
  ∧ get_open_ticket user_chat_id
      (insert_ticket now user_chat_id username first_name None (db w)).1
    = Some (next_ticket_id (db w), None).
Proof.
  intros Hmode. split; [|apply get_open_ticket_insert].
  unfold create_ticket. rewrite run_bind, run_query.
  rewrite bool_decide_eq_false_2 by done.
  rewrite run_bind, run_ret, run_bind. cbn [execute_returning fst snd db trace andb].
  by rewrite run_bind, run_ret, run_ret.
Qed.

End TopicFacts.

Lemma create_ticket_topic_created_witness :
  (create_ticket (-1001) answering 1000 42 (Some (lit "alice")) None start_world).1
  = Returned (1, Some 100).
Proof.
  rewrite (proj1 (create_ticket_topic_created (-1001) answering 1000 42
                    (Some (lit "alice")) None start_world 100
                    eq_refl eq_refl ltac:(discriminate))).
  reflexivity.
Defined.

Lemma create_ticket_without_topic_witness :
  trace (create_ticket (-1001) answering 1000 42 (Some (lit "alice")) None
           (mkWorld (set_topic_mode (lit "single_topic") empty_db) [])).2
  = [].
Proof.
  rewrite (proj1 (create_ticket_without_topic (-1001) answering 1000 42
                    (Some (lit "alice")) None
                    (mkWorld (set_topic_mode (lit "single_topic") empty_db) [])
                    ltac:(intros H; vm_compute in H; discriminate H))).
  reflexivity.
Defined.

(** ** Replies of the operators *)

Lemma reply_call_kwargs message kw c :
  reply_call message kw = Some c →
  kwargs_of c = Some kw
  ∧ (caption_of c = Some (str_or (caption message) [])
     ∨ ∃ body, text message = Some body ∧ c = send_message body None kw).
Proof.
  unfold reply_call.
  destruct (photo message); [|intros [= <-]; split; [done | by left]].
  destruct (video message); [intros [= <-]; split; [done | by left]|].
  destruct (document message); [intros [= <-]; split; [done | by left]|].
  destruct (voice message); [intros [= <-]; split; [done | by left]|].
  destruct (audio message); [intros [= <-]; split; [done | by left]|].
  destruct (text message) as [[|ch body]|]; [done | | done].
  intros [= <-]. split; [done|]. right. by eexists.
Qed.

Section ReplyFacts.

Variable SUPPORT_CHAT_ID : Z.
Variable SUPPORT_TOPIC_ID : option Z.
Variable transport : list call → call → option Z.

(** The run of [reply_from_support] on a reply, in the support chat, to a
    message that the correlation index resolves. *)
Lemma reply_from_support_tracked message w R u m t :
  chat_id message = SUPPORT_CHAT_ID →
  reply_to_message message = Some R →
  find_user_by_support_message R (db w) = Some (u, m, t) →
  reply_from_support SUPPORT_CHAT_ID transport message w
  = if is_user_blocked u (db w) then
      (match transport (trace w) (blocked_notice (chat_id message)) with
       | Some _ => Returned ()
       | None => Raised
       end,
       mkWorld (db w) (trace w ++ [blocked_notice (chat_id message)]))
    else (Returned (), mkWorld (db w) (trace w ++ delivery message u)).
Proof.
  intros Hchat Hreply Hfound. unfold reply_from_support.
  rewrite Hchat, Z.eqb_refl. cbn [negb]. rewrite Hreply.
  rewrite run_bind, run_query, Hfound. rewrite run_bind, run_query.
  destruct (is_user_blocked u (db w)).
  - rewrite run_bind, run_bot. unfold blocked_notice.
    by destruct (transport (trace w) _).
  - unfold delivery. destruct (reply_call message _) as [c|].
    + by rewrite run_bind, run_try_bot.
    + rewrite run_ret, app_nil_r. by destruct w.
Qed.

(** [reply_from_support] ignores, without any call and without touching the
    store, a message outside the support chat, a message that is not a
    reply, and a reply to a message the correlation index does not know. *)
Theorem reply_from_support_ignores message w :
  chat_id message ≠ SUPPORT_CHAT_ID
  ∨ reply_to_message message = None
  ∨ (∃ R, reply_to_message message = Some R
          ∧ find_user_by_support_message R (db w) = None) →
  reply_from_support SUPPORT_CHAT_ID transport message w = (Returned (), w).
Proof.
  intros H. unfold reply_from_support.
  destruct (Z.eqb_spec (chat_id message) SUPPORT_CHAT_ID) as [Hchat | Hchat];
    [|done]. cbn [negb].
  destruct H as [H | [H | (R & HR & Hnone)]]; [done | by rewrite H |].
  rewrite HR, run_bind, run_query. by rewrite Hnone.
Qed.

(** A reply to a relayed message of a user who is not blocked is sent to
    that user's chat, outside any thread and without keyboard, carrying the
    operator's caption (or text) unchanged; at most one call is made, the
    store is not written, and a failure of the call is swallowed. *)
Theorem reply_from_support_delivers message w R u m t :
  chat_id message = SUPPORT_CHAT_ID →
  reply_to_message message = Some R →
  find_user_by_support_message R (db w) = Some (u, m, t) →
  is_user_blocked u (db w) = false →
  reply_from_support SUPPORT_CHAT_ID transport message w
  = (Returned (), mkWorld (db w) (trace w ++ delivery message u))
  ∧ (length (delivery message u) ≤ 1)%nat
  ∧ ∀ c, c ∈ delivery message u →
      kwargs_of c = Some (mkKwargs u None None)
      ∧ is_relay c = false
      ∧ (caption_of c = Some (str_or (caption message) [])
         ∨ ∃ body, text message = Some body
                   ∧ c = send_message body None (mkKwargs u None None)).
Proof.
  intros Hchat Hreply Hfound Hb. split_and!.
  - by rewrite (reply_from_support_tracked message w R u m t), Hb.
  - unfold delivery. destruct (reply_call _ _); cbn; lia.
  - intros c Hc. unfold delivery in Hc.
    destruct (reply_call message _) as [c'|] eqn:Hcall;
      [|by apply elem_of_nil in Hc].
    apply list_elem_of_singleton in Hc as ->.
    apply reply_call_kwargs in Hcall as [Hkw Hcap].
    split_and!; [done | | done].
    unfold is_relay. rewrite Hkw. by apply bool_decide_eq_false_2; intros [x Hx].
Qed.

(** A reply to a relayed message of a blocked user is not delivered: the
    only call is the notice posted back into the operator's chat, the user
    receives nothing, and the store is not written. *)
Theorem reply_from_support_blocked_user message w R u m t :
  chat_id message = SUPPORT_CHAT_ID →
  reply_to_message message = Some R →
  find_user_by_support_message R (db w) = Some (u, m, t) →
  is_user_blocked u (db w) = true →
  (reply_from_support SUPPORT_CHAT_ID transport message w).2
  = mkWorld (db w) (trace w ++ [blocked_notice SUPPORT_CHAT_ID])
  ∧ kwargs_of (blocked_notice SUPPORT_CHAT_ID) = None.
Proof.
  intros Hchat Hreply Hfound Hb. split; [|done].
  rewrite (reply_from_support_tracked message w R u m t), Hb by done.
  by rewrite Hchat.
Qed.



End ReplyFacts.

(** ** Commands of the users *)

Section CommandFacts.

Variable transport : list call → call → option Z.

(** [/start] and [/help] say nothing to a blocked user; to any other user
    they send one message, in the chat the command came from: the text kept
    in the settings, or the built-in text while none was saved.  Neither
    writes to the store. *)
Theorem start_and_help message w (text : str) :
  let user := u_id (from_user message) in
  let saved := mkWorld (set_setting (lit "greeting") text (db w)) (trace w) in
  (if is_user_blocked user (db w) then
     start transport message w = (Returned (), w)
     ∧ help_command transport message w = (Returned (), w)
   else
     (start transport message w).2
     = mkWorld (db w)
         (trace w ++ [reply_text (chat_id message)
                        (get_setting (lit "greeting") DEFAULT_GREETING (db w))])
     ∧ (help_command transport message w).2
       = mkWorld (db w)
           (trace w ++ [reply_text (chat_id message)
                          (get_setting (lit "help") DEFAULT_HELP (db w))])
     ∧ trace (start transport message saved).2
       = trace w ++ [reply_text (chat_id message) text])
  ∧ get_setting (lit "greeting") DEFAULT_GREETING empty_db = DEFAULT_GREETING
  ∧ get_setting (lit "help") DEFAULT_HELP empty_db = DEFAULT_HELP.
Proof.
  intros user saved. split.
  2:{ split; unfold get_setting; cbn [bot_settings empty_db];
        rewrite lookup_empty; reflexivity. }
  destruct (is_user_blocked user (db w)) eqn:Hb.
  - unfold start, help_command. rewrite !run_bind, !run_query. fold user.
    by rewrite Hb.
  - assert (Hb' : is_user_blocked user (db saved) = false) by exact Hb.
    unfold start, help_command. rewrite !run_bind, !run_query. fold user.
    rewrite Hb, Hb'. rewrite !run_bind, !run_query, !run_bind, !run_bot.
    split_and!.
    + by destruct (transport (trace w) _).
    + by destruct (transport (trace w) _).
    + cbn [db trace saved].
      assert (Hget : get_setting (lit "greeting") DEFAULT_GREETING
                       (set_setting (lit "greeting") text (db w))
                     = text).
      { unfold get_setting, set_setting, set_bot_settings. cbn [bot_settings].
        by rewrite lookup_insert_eq. }
      rewrite Hget. by destruct (transport (trace w) _).
Qed.

End CommandFacts.

(** ** Commands of the operators *)

Lemma op_run_bind {A B} (m : OpM A) (f : A → OpM B) (w : OpWorld) :
  (m ≫= f) w
  = match m w with
    | (Returned a, w') => f a w'
    | (Raised, w') => (Raised, w')
    end.
Proof. reflexivity. Qed.

Lemma op_run_ret {A} (a : A) (w : OpWorld) : (mret a : OpM A) w = (Returned a, w).
Proof. reflexivity. Qed.

Lemma op_run_query {A} (f : DB → A) (w : OpWorld) :
  op_query f w = (Returned (f (op_db w)), w).
Proof. reflexivity. Qed.

Lemma closed_not_open : lit "closed" ≠ lit "open".
Proof. intros H. vm_compute in H. discriminate H. Qed.

Lemma get_open_ticket_bound (u : Z) (d : DB) (r : TicketRow) :
  r ∈ tickets d → open_ticket_of u r →
  ∃ T top, get_open_ticket u d = Some (T, top) ∧ t_id r ≤ T.
Proof.
  intros Hr Hopen. unfold get_open_ticket.
  pose proof (foldl_newest_max (List.filter (is_open_ticket_of u) (tickets d)) None) as H.
  assert (Hin : r ∈ List.filter (is_open_ticket_of u) (tickets d)).
  { apply elem_of_filter_bool. split; [done | by apply is_open_ticket_of_spec]. }
  destruct (foldl newest None _) as [a|].
  - destruct H as (_ & _ & Hmax). exists (t_id a), (t_topic_id a).
    split; [done | by apply Hmax].
  - destruct H as [_ Hnil]. rewrite Hnil in Hin. by apply elem_of_nil in Hin.
Qed.

Lemma starts_with_app (prefix s : str) : starts_with prefix (prefix ++ s) = true.
Proof.
  induction prefix as [|c prefix IH]; [by destruct s|].
  cbn. by rewrite N.eqb_refl, IH.
Qed.

Lemma split_on_prefix (sep : N) (prefix s : str) :
  Forall (λ c, c ≠ sep) prefix →
  split_on sep (prefix ++ sep :: s) = prefix :: split_on sep s.
Proof.
  induction 1 as [|c prefix Hc _ IH]; cbn [app split_on].
  - by rewrite N.eqb_refl.
  - apply N.eqb_neq in Hc. by rewrite Hc, IH.
Qed.

Lemma split_on_whole (sep : N) (s : str) :
  Forall (λ c, c ≠ sep) s → split_on sep s = [s].
Proof.
  induction 1 as [|c s Hc _ IH]; cbn [split_on]; [done|].
  apply N.eqb_neq in Hc. by rewrite Hc, IH.
Qed.

(** The decimal numeral of an integer holds digits and at most a sign, so
    no underscore. *)
Lemma str_of_int_no_underscore (n : Z) : Forall (λ c, c ≠ 95%N) (str_of_int n).
Proof.
  unfold str_of_int.
  assert (Hu : ∀ u, Forall (λ c, c ≠ 95%N)
                      (map N_of_ascii (list_ascii_of_string
                                         (NilEmpty.string_of_uint u)))).
  { induction u; cbn; constructor; try done; by vm_compute. }
  assert (Hz : ∀ u, Forall (λ c, c ≠ 95%N)
                      (map N_of_ascii (list_ascii_of_string
                                         (NilZero.string_of_uint u)))).
  { intros u. destruct u; try apply Hu. cbn. constructor; [by vm_compute | constructor]. }
  destruct (Z.to_int n) as [u | u]; cbn [NilZero.string_of_int].
  - apply Hz.
  - cbn. constructor; [by vm_compute | apply Hz].
Qed.

Lemma block_data_split (n : Z) :
  starts_with (lit "block_") (lit "block_" ++ str_of_int n) = true
  ∧ split_on 95 (lit "block_" ++ str_of_int n) = [lit "block"; str_of_int n].
Proof.
  split; [apply starts_with_app|].
  replace (lit "block_") with (lit "block" ++ [95%N]) by (by vm_compute).
  rewrite <- app_assoc. cbn [app].
  rewrite split_on_prefix.
  - by rewrite split_on_whole by apply str_of_int_no_underscore.
  - vm_compute (lit "block"). repeat constructor; by vm_compute.
Qed.

Section OperatorFacts.

Variable SUPPORT_CHAT_ID : Z.
Variable op_transport : list op_call → op_call → option Z.
Variable py_int : str → option Z.

Lemma op_run_bot (c : op_call) (w : OpWorld) :
  op_bot op_transport c w
  = (match op_transport (op_trace w) c with Some r => Returned r | None => Raised end,
     mkOpWorld (op_db w) (op_trace w ++ [c])).
Proof. unfold op_bot. by destruct (op_transport (op_trace w) c). Qed.

Lemma op_run_try_bot (c : op_call) (w : OpWorld) :
  op_try (op_bot op_transport c) w
  = (Returned (op_transport (op_trace w) c), mkOpWorld (op_db w) (op_trace w ++ [c])).
Proof. unfold op_try, op_bot. by destruct (op_transport (op_trace w) c). Qed.

Lemma update_topic_status_run ticket_id status w :
  update_topic_status SUPPORT_CHAT_ID op_transport ticket_id status w
  = (Returned (),
     mkOpWorld (op_db w)
               (op_trace w ++ renaming SUPPORT_CHAT_ID ticket_id status (op_db w))).
Proof.
  assert (Hnil : (Returned (), w)
                 = (Returned (), mkOpWorld (op_db w) (op_trace w ++ []))).
  { rewrite app_nil_r. by destruct w. }
  unfold update_topic_status, renaming. rewrite op_run_bind, op_run_query.
  destruct (bool_decide (get_topic_mode (op_db w) = lit "per_user")); cbn [negb];
    [|by rewrite op_run_ret].
  rewrite op_run_bind, op_run_query.
  destruct (get_ticket ticket_id (op_db w)) as [r|]; [|by rewrite op_run_ret].
  destruct (t_topic_id r) as [topic_id|]; [|by rewrite op_run_ret].
  destruct (topic_id =? 0); [by rewrite op_run_ret|].
  by rewrite op_run_bind, op_run_try_bot.
Qed.

(** [update_topic_status] never fails and never writes to the store.  It
    makes no call outside [per_user] mode or for a ticket that does not
    exist or has no topic; otherwise its one call renames the topic of the
    ticket, in the support chat, to the status mark and the display name, cut
    to 128 characters. *)
Theorem update_topic_status_renames ticket_id status w :
  let run := update_topic_status SUPPORT_CHAT_ID op_transport ticket_id status w in
  run.1 = Returned ()
  ∧ op_db run.2 = op_db w
  ∧ ∃ added,
      op_trace run.2 = op_trace w ++ added
      ∧ (get_topic_mode (op_db w) ≠ lit "per_user" → added = [])
      ∧ (get_ticket ticket_id (op_db w) = None → added = [])
      ∧ (∀ r, get_ticket ticket_id (op_db w) = Some r →
              truthy_int (t_topic_id r) = false → added = [])
      ∧ (∀ r topic_id,
           get_topic_mode (op_db w) = lit "per_user" →
           get_ticket ticket_id (op_db w) = Some r →
           t_topic_id r = Some topic_id → topic_id ≠ 0 →
           added = [edit_forum_topic SUPPORT_CHAT_ID topic_id
                      (take 128 (topic_label status r))]
           ∧ (length (take 128 (topic_label status r)) ≤ 128)%nat).
Proof.
  intros run. subst run. rewrite update_topic_status_run. cbn [fst snd op_db op_trace].
  split_and!; [done | done |].
  exists (renaming SUPPORT_CHAT_ID ticket_id status (op_db w)).
  unfold renaming. split_and!.
  - done.
  - intros Hmode. by rewrite bool_decide_eq_false_2.
  - intros ->. by destruct (bool_decide _).
  - intros r -> Htopic. destruct (bool_decide _); [|done].
    destruct (t_topic_id r) as [topic_id|]; [|done].
    cbn in Htopic. apply negb_false_iff in Htopic. by rewrite Htopic.
  - intros r topic_id Hmode -> -> Hne. rewrite bool_decide_eq_true_2 by done.
    destruct (Z.eqb_spec topic_id 0); [done|]. split; [done|].
    rewrite length_take. lia.
Qed.

(** After a ticket was closed, no lookup of an open ticket returns it. *)
Lemma closed_ticket_not_open now T d u T' top :
  get_open_ticket u (update_ticket_status now T (lit "closed") d) = Some (T', top) →
  T' ≠ T.
Proof.
  intros H. apply get_open_ticket_elem in H as (r & Hr & Hid & _ & _ & Hst).
  unfold update_ticket_status, set_tickets in Hr. cbn [tickets] in Hr.
  apply list_elem_of_fmap in Hr as (x & -> & _).
  unfold set_status_of in Hid, Hst. intros ->.
  destruct (Z.eqb_spec (t_id x) T) as [He | Hne]; [|done].
  cbn in Hst. by apply closed_not_open.
Qed.

(** The run of [/close] on a reply to a relayed message that belongs to a
    ticket. *)
Lemma close_ticket_cmd_run now message w R T :
  chat_id message = SUPPORT_CHAT_ID →
  reply_to_message message = Some R →
  get_ticket_by_support_message R (op_db w) = Some T →
  T ≠ 0 →
  let d' := update_ticket_status now T (lit "closed") (op_db w) in
  let before := op_trace w ++ renaming SUPPORT_CHAT_ID T (lit "closed") d' in
  let confirmation := closed_confirmation SUPPORT_CHAT_ID T in
  let notice :=
    match get_user_chat_id_by_ticket T (op_db w) with
    | Some user => if user =? 0 then [] else [closure_notice user]
    | None => []
    end in
  close_ticket_cmd SUPPORT_CHAT_ID op_transport now message w
  = match op_transport before confirmation with
    | Some _ => (Returned (), mkOpWorld d' (before ++ [confirmation] ++ notice))
    | None => (Raised, mkOpWorld d' (before ++ [confirmation]))
    end.
Proof.
  intros Hchat Hreply Hfound HT. cbv zeta. unfold close_ticket_cmd.
  rewrite Hchat, Z.eqb_refl. cbn [negb]. rewrite Hreply.
  rewrite op_run_bind, op_run_query, Hfound.
  destruct (Z.eqb_spec T 0) as [|_]; [done|].
  rewrite op_run_bind, op_run_query.
  rewrite op_run_bind. cbn [op_execute op_db op_trace].
  rewrite op_run_bind, update_topic_status_run. cbn [op_db op_trace].
  rewrite op_run_bind, op_run_bot. cbn [op_db op_trace].
  unfold closed_confirmation.
  destruct (op_transport _ _); [|done].
  destruct (get_user_chat_id_by_ticket T (op_db w)) as [user|].
  - destruct (user =? 0).
    + rewrite op_run_ret. by rewrite app_nil_r.
    + rewrite op_run_bind, op_run_try_bot. cbn [op_db op_trace].
      rewrite op_run_ret. unfold closure_notice. by rewrite <- app_assoc.
  - rewrite op_run_ret. by rewrite app_nil_r.
Qed.

(** [/close], replied to a relayed message of a ticket, closes that ticket
    whatever the transport does: the ticket gets status [closed] and the
    clock reading, and is no longer anyone's open ticket.  The operator gets
    a confirmation, and the only user contacted is the owner of the ticket,
    with the closure notice, and only after the confirmation went out. *)
Theorem close_ticket_cmd_closes now message w R T :
  chat_id message = SUPPORT_CHAT_ID →
  reply_to_message message = Some R →
  get_ticket_by_support_message R (op_db w) = Some T →
  T ≠ 0 →
  let run := close_ticket_cmd SUPPORT_CHAT_ID op_transport now message w in
  op_db run.2 = update_ticket_status now T (lit "closed") (op_db w)
  ∧ (∀ r, get_ticket T (op_db w) = Some r →
          get_ticket T (op_db run.2) = Some (with_status (lit "closed") now r))
  ∧ (∀ u top, get_open_ticket u (op_db run.2) ≠ Some (T, top))
  ∧ ∃ added,
      op_trace run.2 = op_trace w ++ added
      ∧ closed_confirmation SUPPORT_CHAT_ID T ∈ added
      ∧ (∀ c u, c ∈ added → sent_to_user c = Some u →
                get_user_chat_id_by_ticket T (op_db w) = Some u
                ∧ c = closure_notice u ∧ run.1 = Returned ())
      ∧ (∀ u, run.1 = Returned () →
              get_user_chat_id_by_ticket T (op_db w) = Some u → u ≠ 0 →
              closure_notice u ∈ added).
Proof.
  intros Hchat Hreply Hfound HT run.
  pose proof (close_ticket_cmd_run now message w R T Hchat Hreply Hfound HT) as Hrun.
  cbv zeta in Hrun. fold run in Hrun.
  set (d' := update_ticket_status now T (lit "closed") (op_db w)) in *.
  set (ren := renaming SUPPORT_CHAT_ID T (lit "closed") d') in *.
  assert (Hren : ∀ c, c ∈ ren → sent_to_user c = None).
  { intros c Hc. subst ren. unfold renaming in Hc.
    destruct (bool_decide _); [|by apply elem_of_nil in Hc].
    destruct (get_ticket T d') as [r|]; [|by apply elem_of_nil in Hc].
    destruct (t_topic_id r) as [topic_id|]; [|by apply elem_of_nil in Hc].
    destruct (topic_id =? 0); [by apply elem_of_nil in Hc|].
    by apply list_elem_of_singleton in Hc as ->. }
  assert (Hdb : op_db run.2 = d').
  { rewrite Hrun. by destruct (op_transport _ _). }
  split_and!.
  - exact Hdb.
  - intros r Hr. rewrite Hdb. subst d'. rewrite get_ticket_update, Hr. cbn.
    unfold set_status_of. apply List.find_some in Hr as [_ Hr].
    by rewrite Hr.
  - intros u top H. rewrite Hdb in H. by apply closed_ticket_not_open in H.
  - rewrite Hrun. destruct (op_transport _ _) as [z|].
    + eexists. cbn [fst snd op_trace]. rewrite <- app_assoc.
      split_and!; [reflexivity | | |].
      * apply elem_of_app. right. by left.
      * intros c u Hc Hsent.
        apply elem_of_app in Hc as [Hc | Hc]; [by rewrite (Hren c Hc) in Hsent|].
        apply elem_of_cons in Hc as [-> | Hc]; [done|].
        destruct (get_user_chat_id_by_ticket T (op_db w)) as [user|];
          [|by apply elem_of_nil in Hc].
        destruct (user =? 0); [by apply elem_of_nil in Hc|].
        apply list_elem_of_singleton in Hc as ->.
        cbn in Hsent. by injection Hsent as <-.
      * intros u _ -> Hu.
        destruct (Z.eqb_spec u 0); [done|].
        apply elem_of_app. right. right. by left.
    + eexists. cbn [fst snd op_trace]. rewrite <- app_assoc.
      split_and!; [reflexivity | | |].
      * apply elem_of_app. right. by left.
      * intros c u Hc Hsent.
        apply elem_of_app in Hc as [Hc | Hc]; [by rewrite (Hren c Hc) in Hsent|].
        by apply list_elem_of_singleton in Hc as ->.
      * done.
Qed.

Lemma reopen_ticket_cmd_run now message w R T :
  chat_id message = SUPPORT_CHAT_ID →
  reply_to_message message = Some R →
  get_ticket_by_support_message R (op_db w) = Some T →
  T ≠ 0 →
  let d' := update_ticket_status now T (lit "open") (op_db w) in
  let before := op_trace w ++ renaming SUPPORT_CHAT_ID T (lit "open") d' in
  let confirmation := reopened_confirmation SUPPORT_CHAT_ID T in
  reopen_ticket_cmd SUPPORT_CHAT_ID op_transport now message w
  = (match op_transport before confirmation with
     | Some _ => Returned ()
     | None => Raised
     end,
     mkOpWorld d' (before ++ [confirmation])).
Proof.
  intros Hchat Hreply Hfound HT. cbv zeta. unfold reopen_ticket_cmd.
  rewrite Hchat, Z.eqb_refl. cbn [negb]. rewrite Hreply.
  rewrite op_run_bind, op_run_query, Hfound.
  destruct (Z.eqb_spec T 0) as [|_]; [done|].
  rewrite op_run_bind. cbn [op_execute op_db op_trace].
  rewrite op_run_bind, update_topic_status_run. cbn [op_db op_trace].
  rewrite op_run_bind, op_run_bot. cbn [op_db op_trace].
  unfold reopened_confirmation. by destruct (op_transport _ _).
Qed.

(** [/reopen], replied to a relayed message of a ticket, sets the ticket
    back to [open] whatever the transport does, so that its owner has an
    open ticket again (the reopened one, unless a newer ticket of theirs is
    open); the operator gets a confirmation and no user is contacted. *)
Theorem reopen_ticket_cmd_reopens now message w R T :
  chat_id message = SUPPORT_CHAT_ID →
  reply_to_message message = Some R →
  get_ticket_by_support_message R (op_db w) = Some T →
  T ≠ 0 →
  let run := reopen_ticket_cmd SUPPORT_CHAT_ID op_transport now message w in
  op_db run.2 = update_ticket_status now T (lit "open") (op_db w)
  ∧ (∀ r, get_ticket T (op_db w) = Some r →
          get_ticket T (op_db run.2) = Some (with_status (lit "open") now r)
          ∧ ∃ T' top, get_open_ticket (t_user_chat_id r) (op_db run.2) = Some (T', top)
                      ∧ T ≤ T')
  ∧ ∃ added,
      op_trace run.2 = op_trace w ++ added
      ∧ reopened_confirmation SUPPORT_CHAT_ID T ∈ added
      ∧ ∀ c, c ∈ added → sent_to_user c = None.
Proof.
  intros Hchat Hreply Hfound HT run.
  pose proof (reopen_ticket_cmd_run now message w R T Hchat Hreply Hfound HT) as Hrun.
  cbv zeta in Hrun. fold run in Hrun. rewrite Hrun. cbn [fst snd op_db op_trace].
  split_and!.
  - done.
  - intros r Hr.
    assert (Hget : get_ticket T (update_ticket_status now T (lit "open") (op_db w))
                   = Some (with_status (lit "open") now r)).
    { rewrite get_ticket_update, Hr. cbn. unfold set_status_of.
      apply List.find_some in Hr as [_ Hr]. by rewrite Hr. }
    split; [exact Hget|].
    assert (Hid : t_id r = T).
    { apply List.find_some in Hr as [_ Hr]. by apply Z.eqb_eq in Hr. }
    apply List.find_some in Hget as [Hin _]. apply list_elem_of_In in Hin.
    destruct (get_open_ticket_bound (t_user_chat_id r) _ _ Hin) as (T' & top & -> & Hle);
      [done|].
    exists T', top. split; [done|]. cbn in Hle. lia.
  - eexists. rewrite <- app_assoc. split_and!; [reflexivity | |].
    + apply elem_of_app. right. by left.
    + intros c Hc. apply elem_of_app in Hc as [Hc | Hc].
      * unfold renaming in Hc.
        destruct (bool_decide _); [|by apply elem_of_nil in Hc].
        destruct (get_ticket T _) as [r|]; [|by apply elem_of_nil in Hc].
        destruct (t_topic_id r) as [topic_id|]; [|by apply elem_of_nil in Hc].
        destruct (topic_id =? 0); [by apply elem_of_nil in Hc|].
        by apply list_elem_of_singleton in Hc as ->.
      * by apply list_elem_of_singleton in Hc as ->.
Qed.

(** What [/close] and [/reopen] can do to the store, in every case. *)
Lemma close_ticket_cmd_db now message w :
  op_db (close_ticket_cmd SUPPORT_CHAT_ID op_transport now message w).2 = op_db w
  ∨ ∃ T, op_db (close_ticket_cmd SUPPORT_CHAT_ID op_transport now message w).2
         = update_ticket_status now T (lit "closed") (op_db w).
Proof.
  destruct (Z.eqb_spec (chat_id message) SUPPORT_CHAT_ID) as [Hchat | Hchat].
  - destruct (reply_to_message message) as [R|] eqn:Hreply.
    + destruct (get_ticket_by_support_message R (op_db w)) as [T|] eqn:Hfound.
      * destruct (Z.eqb_spec T 0) as [-> | HT].
        -- left. unfold close_ticket_cmd.
           rewrite Hchat, Z.eqb_refl. cbn [negb]. rewrite Hreply.
           rewrite op_run_bind, op_run_query, Hfound. cbn [Z.eqb].
           rewrite op_run_bind, op_run_bot. by destruct (op_transport _ _).
        -- right. exists T.
           rewrite (close_ticket_cmd_run now message w R T Hchat Hreply Hfound HT).
           by destruct (op_transport _ _).
      * left. unfold close_ticket_cmd.
        rewrite Hchat, Z.eqb_refl. cbn [negb]. rewrite Hreply.
        rewrite op_run_bind, op_run_query, Hfound.
        rewrite op_run_bind, op_run_bot. by destruct (op_transport _ _).
    + left. unfold close_ticket_cmd.
      rewrite Hchat, Z.eqb_refl. cbn [negb]. rewrite Hreply.
      rewrite op_run_bind, op_run_bot. by destruct (op_transport _ _).
  - left. unfold close_ticket_cmd.
    apply Z.eqb_neq in Hchat. by rewrite Hchat.
Qed.

Lemma reopen_ticket_cmd_db now message w :
  op_db (reopen_ticket_cmd SUPPORT_CHAT_ID op_transport now message w).2 = op_db w
  ∨ ∃ T, op_db (reopen_ticket_cmd SUPPORT_CHAT_ID op_transport now message w).2
         = update_ticket_status now T (lit "open") (op_db w).
Proof.
  destruct (Z.eqb_spec (chat_id message) SUPPORT_CHAT_ID) as [Hchat | Hchat].
  - destruct (reply_to_message message) as [R|] eqn:Hreply.
    + destruct (get_ticket_by_support_message R (op_db w)) as [T|] eqn:Hfound.
      * destruct (Z.eqb_spec T 0) as [-> | HT].
        -- left. unfold reopen_ticket_cmd.
           rewrite Hchat, Z.eqb_refl. cbn [negb]. rewrite Hreply.
           rewrite op_run_bind, op_run_query, Hfound. cbn [Z.eqb].
           rewrite op_run_bind, op_run_bot. by destruct (op_transport _ _).
        -- right. exists T.
           by rewrite (reopen_ticket_cmd_run now message w R T Hchat Hreply Hfound HT).
      * left. unfold reopen_ticket_cmd.
        rewrite Hchat, Z.eqb_refl. cbn [negb]. rewrite Hreply.
        rewrite op_run_bind, op_run_query, Hfound.
        rewrite op_run_bind, op_run_bot. by destruct (op_transport _ _).
    + left. unfold reopen_ticket_cmd.
      rewrite Hchat, Z.eqb_refl. cbn [negb]. rewrite Hreply.
      rewrite op_run_bind, op_run_bot. by destruct (op_transport _ _).
  - left. unfold reopen_ticket_cmd.
    apply Z.eqb_neq in Hchat. by rewrite Hchat.
Qed.

(** Outside the support chat [/close] and [/reopen] do nothing at all; in the
    support chat, when the command is not a reply or replies to a message
    that no ticket is known for, they only answer the operator: the store is
    not written and no user is contacted. *)
Theorem close_and_reopen_guards now message w :
  chat_id message ≠ SUPPORT_CHAT_ID
  ∨ reply_to_message message = None
  ∨ (∃ R, reply_to_message message = Some R
          ∧ (get_ticket_by_support_message R (op_db w) = None
             ∨ get_ticket_by_support_message R (op_db w) = Some 0)) →
  ∀ run,
    run = close_ticket_cmd SUPPORT_CHAT_ID op_transport now message w
    ∨ run = reopen_ticket_cmd SUPPORT_CHAT_ID op_transport now message w →
    op_db run.2 = op_db w
    ∧ (chat_id message ≠ SUPPORT_CHAT_ID → run = (Returned (), w))
    ∧ ∃ added, op_trace run.2 = op_trace w ++ added
               ∧ (length added ≤ 1)%nat
               ∧ ∀ c, c ∈ added → sent_to_user c = None.
Proof.
  intros Hguard run Hrun.
  assert (Hone : ∀ c : op_call, ∀ o : outcome unit,
            sent_to_user c = None →
            op_db (o, mkOpWorld (op_db w) (op_trace w ++ [c])).2 = op_db w
            ∧ ∃ added, op_trace (o, mkOpWorld (op_db w) (op_trace w ++ [c])).2
                       = op_trace w ++ added
                       ∧ (length added ≤ 1)%nat
                       ∧ ∀ c', c' ∈ added → sent_to_user c' = None).
  { intros c o Hc. split; [done|]. exists [c]. split_and!; [done | cbn; lia |].
    intros c' Hc'. by apply list_elem_of_singleton in Hc' as ->. }
  destruct (Z.eqb_spec (chat_id message) SUPPORT_CHAT_ID) as [Hchat | Hchat].
  - assert (Hshape : ∃ c o, sent_to_user c = None
                            ∧ run = (o, mkOpWorld (op_db w) (op_trace w ++ [c]))).
    { destruct Hguard as [Hne | [Hnone | (R & HR & Hfound)]]; [done | |].
      - destruct Hrun as [-> | ->]; unfold close_ticket_cmd, reopen_ticket_cmd;
          rewrite Hchat, Z.eqb_refl; cbn [negb]; rewrite Hnone;
          rewrite op_run_bind, op_run_bot;
          destruct (op_transport _ _); eexists _, _; (split; [|reflexivity]); done.
      - destruct Hrun as [-> | ->]; unfold close_ticket_cmd, reopen_ticket_cmd;
          rewrite Hchat, Z.eqb_refl; cbn [negb]; rewrite HR;
          rewrite op_run_bind, op_run_query;
          destruct Hfound as [-> | ->]; cbn [Z.eqb];
          rewrite op_run_bind, op_run_bot;
          destruct (op_transport _ _); eexists _, _; (split; [|reflexivity]); done. }
    destruct Hshape as (c & o & Hc & ->).
    destruct (Hone c o Hc) as [Hdb Htr]. by split_and!.
  - assert (Hsame : run = (Returned (), w)).
    { apply Z.eqb_neq in Hchat.
      destruct Hrun as [-> | ->]; unfold close_ticket_cmd, reopen_ticket_cmd;
        by rewrite Hchat. }
    rewrite Hsame. split_and!; [done | done |].
    exists []. rewrite app_nil_r. split_and!; [done | cbn; lia |].
    intros c Hc. by apply elem_of_nil in Hc.
Qed.

(** The run of [block_user_callback] on the data of a block button. *)
Lemma block_user_callback_run now query w u :
  cq_data query = lit "block_" ++ str_of_int u →
  py_int (str_of_int u) = Some u →
  let result := toggle_user_block now u (cq_from_user query) (op_db w) in
  let report :=
    op_plain (send_message (block_report result.2 (blocked_user_info u result.1)) None
                           (mkKwargs (cq_chat_id query) (cq_message_thread_id query) None)) in
  block_user_callback op_transport py_int now query w
  = match op_transport (op_trace w) answer_callback_query with
    | None => (Raised, mkOpWorld (op_db w) (op_trace w ++ [answer_callback_query]))
    | Some _ =>
      (match op_transport (op_trace w ++ [answer_callback_query]) report with
       | Some _ => Returned ()
       | None => Raised
       end,
       mkOpWorld result.1 (op_trace w ++ [answer_callback_query; report]))
    end.
Proof.
  intros Hdata Hint. cbv zeta. unfold block_user_callback.
  rewrite op_run_bind, op_run_bot.
  destruct (op_transport (op_trace w) answer_callback_query); [|done].
  rewrite Hdata. destruct (block_data_split u) as [-> ->]. cbn [negb].
  rewrite Hint. rewrite op_run_bind. cbn [op_execute_returning op_db op_trace].
  rewrite op_run_bind, op_run_query. cbn [op_db].
  rewrite op_run_bind, op_run_bot. cbn [op_db op_trace].
  rewrite <- app_assoc. cbn [app]. unfold block_report.
  destruct (toggle_user_block now u (cq_from_user query) (op_db w)).2;
    by destruct (op_transport _ _).
Qed.

(** Pressing the block button under a relayed message toggles the block
    state of the user the button names, and of nobody else, and reports into
    the chat and thread where the button was pressed.  The button under
    every relay of [forward_to_support] names the sender of the relayed
    message. *)
Theorem block_button_toggles now query w u :
  cq_data query = lit "block_" ++ str_of_int u →
  py_int (str_of_int u) = Some u →
  is_Some (op_transport (op_trace w) answer_callback_query) →
  let run := block_user_callback op_transport py_int now query w in
  op_db run.2 = (toggle_user_block now u (cq_from_user query) (op_db w)).1
  ∧ is_user_blocked u (op_db run.2) = negb (is_user_blocked u (op_db w))
  ∧ (∀ v, v ≠ u → is_user_blocked v (op_db run.2) = is_user_blocked v (op_db w))
  ∧ (∃ body,
       op_trace run.2
       = op_trace w
         ++ [answer_callback_query;
             op_plain (send_message body None
                         (mkKwargs (cq_chat_id query) (cq_message_thread_id query) None))])
  ∧ ∀ stid topic_mode topic_id,
      kw_reply_markup (send_kwargs_for SUPPORT_CHAT_ID stid topic_mode topic_id u)
      = Some (lit "block_" ++ str_of_int u).
Proof.
  intros Hdata Hint [z Hz] run. subst run.
  rewrite (block_user_callback_run now query w u Hdata Hint), Hz.
  cbn [snd op_db op_trace]. split_and!.
  - done.
  - rewrite toggle_user_block_membership. by rewrite decide_True.
  - intros v Hv. rewrite toggle_user_block_membership. by rewrite decide_False.
  - by eexists.
  - done.
Qed.


Lemma block_user_callback_db now query w :
  op_db (block_user_callback op_transport py_int now query w).2 = op_db w
  ∨ ∃ u a, op_db (block_user_callback op_transport py_int now query w).2
           = (toggle_user_block now u a (op_db w)).1.
Proof.
  unfold block_user_callback. rewrite op_run_bind, op_run_bot.
  destruct (op_transport (op_trace w) answer_callback_query); [|by left].
  destruct (starts_with _ _); [|by left]. cbn [negb].
  destruct (split_on 95 (cq_data query)) as [|first [|segment rest]];
    [by left | by left |].
  destruct (py_int segment) as [target|]; [|by left].
  right. exists target, (cq_from_user query).
  rewrite op_run_bind. cbn [op_execute_returning op_db op_trace].
  rewrite op_run_bind, op_run_query. cbn [op_db].
  rewrite op_run_bind, op_run_bot. by destruct (op_transport _ _).
Qed.

(** The handlers of the operator side keep the store well formed: [/close]
    and [/reopen] only set a status to [closed] or [open], and the block
    button only writes to the block list. *)
Theorem operator_handlers_store_ok now message query w :
  store_ok (op_db w) →
  store_ok (op_db (close_ticket_cmd SUPPORT_CHAT_ID op_transport now message w).2)
  ∧ store_ok (op_db (reopen_ticket_cmd SUPPORT_CHAT_ID op_transport now message w).2)
  ∧ store_ok (op_db (block_user_callback op_transport py_int now query w).2).
Proof.
  intros Hok. split_and!.
  - destruct (close_ticket_cmd_db now message w) as [-> | [T ->]]; [done|].
    apply update_ticket_status_store_ok; [by right | done].
  - destruct (reopen_ticket_cmd_db now message w) as [-> | [T ->]]; [done|].
    apply update_ticket_status_store_ok; [by left | done].
  - destruct (block_user_callback_db now query w) as [-> | (u & a & ->)]; [done|].
    by apply toggle_user_block_store_ok.
Qed.

End OperatorFacts.

(** ** A message after the ticket was closed *)

Lemma get_open_ticket_none (u : Z) (d : DB) :
  (∀ r, r ∈ tickets d → ¬ open_ticket_of u r) → get_open_ticket u d = None.
Proof.
  intros Hnone. destruct (get_open_ticket u d) as [[T top]|] eqn:H; [|done].
  apply get_open_ticket_elem in H as (r & Hr & _ & _ & Hopen).
  by destruct (Hnone r Hr).
Qed.

Section AfterClose.

Variable SUPPORT_CHAT_ID : Z.
Variable SUPPORT_TOPIC_ID : option Z.
Variable transport : list call → call → option Z.

(** Once the only open ticket of a user has been closed, the user has no
    open ticket, and their next message opens a new one, with a new id,
    instead of landing in the closed ticket. *)
Theorem message_after_close_opens_ticket now now' T message w :
  is_user_blocked (chat_id message) (db w) = false →
  (∀ r, r ∈ tickets (db w) → open_ticket_of (chat_id message) r → t_id r = T) →
  let closed := mkWorld (update_ticket_status now T (lit "closed") (db w)) (trace w) in
  let w' := (forward_to_support SUPPORT_CHAT_ID SUPPORT_TOPIC_ID transport
               now' message closed).2 in
  get_open_ticket (chat_id message) (db closed) = None
  ∧ ∃ r, tickets (db w') = tickets (db closed) ++ [r]
         ∧ open_ticket_of (chat_id message) r
         ∧ t_id r = next_ticket_id (db closed)
         ∧ (∀ x, x ∈ tickets (db w) → t_id x < t_id r)
         ∧ get_open_ticket (chat_id message) (db w') = Some (t_id r, t_topic_id r).
Proof.
  intros Hb Honly closed w'.
  assert (Hnone : get_open_ticket (chat_id message) (db closed) = None).
  { apply get_open_ticket_none. intros r Hr [Hu Hst].
    unfold closed, update_ticket_status, set_tickets in Hr. cbn [db tickets] in Hr.
    apply list_elem_of_fmap in Hr as (x & -> & Hx).
    unfold set_status_of in Hu, Hst.
    destruct (Z.eqb_spec (t_id x) T) as [He | Hne].
    - cbn in Hst. by apply closed_not_open.
    - apply Hne, Honly; [done | by split]. }
  split; [exact Hnone|].
  assert (Hb' : is_user_blocked (chat_id message) (db closed) = false) by exact Hb.
  destruct (forward_to_support_new_ticket SUPPORT_CHAT_ID SUPPORT_TOPIC_ID transport
              now' message closed Hb' Hnone) as (topic_id & calls & _ & Hrun).
  cbv zeta in Hrun.
  assert (Hdb : tickets (db w')
                = tickets (db closed)
                  ++ [mkTicket (next_ticket_id (db closed)) (chat_id message)
                        (u_username (from_user message))
                        (Some (u_first_name (from_user message)))
                        (lit "open") now' now' topic_id]
                ∧ get_open_ticket (chat_id message) (db w')
                  = Some (next_ticket_id (db closed), topic_id)).
  { subst w'. rewrite Hrun. destruct (transport _ _).
    - match goal with |- context [relay _ _ ?h ?k ?i ?w0] =>
        destruct (relay_effect transport message h k i w0) as (-> & -> & _) end.
      split; [done|]. apply get_open_ticket_insert.
    - split; [done|]. apply get_open_ticket_insert. }
  destruct Hdb as [Ht Ho]. eexists. split_and!; [exact Ht | done | done | | exact Ho].
  intros x Hx. cbn [t_id].
  assert (Hin : set_status_of T (lit "closed") now x ∈ tickets (db closed)).
  { unfold closed, update_ticket_status, set_tickets. cbn [db tickets].
    apply list_elem_of_fmap. by exists x. }
  apply t_id_le_max in Hin. rewrite set_status_of_id in Hin.
  unfold next_ticket_id. lia.
Qed.

End AfterClose.

(** ** The further properties on sample data *)

Lemma message_after_close_opens_ticket_witness :
  let w := (forward_to_support (-1001) None answering 1000 text_message start_world).2 in
  get_open_ticket 42 (update_ticket_status 2000 1 (lit "closed") (db w)) = None.
Proof.
  intros w.
  refine (proj1 (message_after_close_opens_ticket (-1001) None answering 2000 3000 1
                   text_message w eq_refl _)).
  intros r Hr _. vm_compute in Hr. apply list_elem_of_singleton in Hr. by subst r.
Defined.

Lemma reply_from_support_ignores_witness :
  reply_from_support (-1001) answering text_message start_world
  = (Returned (), start_world).
Proof.
  apply reply_from_support_ignores. left. cbn. lia.
Defined.

Lemma reply_from_support_delivers_witness :
  let w := (forward_to_support (-1001) None answering 1000 text_message start_world).2 in
  (reply_from_support (-1001) answering operator_reply w).1 = Returned ().
Proof.
  intros w.
  exact (f_equal fst
           (proj1 (reply_from_support_delivers (-1001) answering operator_reply w
                     103 42 7 1 eq_refl eq_refl
                     ltac:(by vm_compute) ltac:(by vm_compute)))).
Defined.

Lemma reply_from_support_blocked_user_witness :
  let w := (forward_to_support (-1001) None answering 1000 text_message start_world).2 in
  let blocked := mkWorld (toggle_user_block 1500 42 9 (db w)).1 (trace w) in
  db (reply_from_support (-1001) answering operator_reply blocked).2 = db blocked.
Proof.
  intros w blocked.
  exact (f_equal db
           (proj1 (reply_from_support_blocked_user (-1001) answering operator_reply
                     blocked 103 42 7 1 eq_refl eq_refl
                     ltac:(by vm_compute) ltac:(by vm_compute)))).
Defined.


Lemma close_ticket_cmd_closes_witness :
  let w := (forward_to_support (-1001) None answering 1000 text_message start_world).2 in
  op_db (close_ticket_cmd (-1001) op_answering 2000 close_command
           (mkOpWorld (db w) [])).2
  = update_ticket_status 2000 1 (lit "closed") (db w).
Proof.
  intros w.
  exact (proj1 (close_ticket_cmd_closes (-1001) op_answering 2000 close_command
                  (mkOpWorld (db w) []) 103 1 eq_refl eq_refl
                  ltac:(by vm_compute) ltac:(discriminate))).
Defined.

Lemma reopen_ticket_cmd_reopens_witness :
  let w := (forward_to_support (-1001) None answering 1000 text_message start_world).2 in
  let closed := update_ticket_status 2000 1 (lit "closed") (db w) in
  op_db (reopen_ticket_cmd (-1001) op_answering 3000 close_command
           (mkOpWorld closed [])).2
  = update_ticket_status 3000 1 (lit "open") closed.
Proof.
  intros w closed.
  exact (proj1 (reopen_ticket_cmd_reopens (-1001) op_answering 3000 close_command
                  (mkOpWorld closed []) 103 1 eq_refl eq_refl
                  ltac:(by vm_compute) ltac:(discriminate))).
Defined.

Lemma close_and_reopen_guards_witness :
  op_db (close_ticket_cmd (-1001) op_answering 2000 close_command
           (mkOpWorld empty_db [])).2
  = empty_db.
Proof.
  refine (proj1 (close_and_reopen_guards (-1001) op_answering 2000 close_command
                   (mkOpWorld empty_db []) _ _ (or_introl eq_refl))).
  right. right. exists 103. split; [reflexivity | by left].
Defined.

Lemma block_button_toggles_witness :
  let w := (forward_to_support (-1001) None answering 1000 text_message start_world).2 in
  is_user_blocked 42
    (op_db (block_user_callback op_answering read_42 2000 block_press
              (mkOpWorld (db w) [])).2)
  = negb (is_user_blocked 42 (db w)).
Proof.
  intros w.
  refine (proj1 (proj2 (block_button_toggles (-1001) op_answering read_42 2000
                          block_press (mkOpWorld (db w) []) 42
                          ltac:(by vm_compute) ltac:(by vm_compute) _))).
  by eexists.
Defined.


Lemma operator_handlers_store_ok_witness :
  store_ok (op_db (close_ticket_cmd (-1001) op_answering 2000 close_command
                     (mkOpWorld empty_db [])).2).
Proof.
  exact (proj1 (operator_handlers_store_ok (-1001) op_answering read_42 2000
                  close_command block_press (mkOpWorld empty_db []) store_ok_empty)).
Defined.
